(** * useToken: a shallow embedding of src/hook/useToken.ts

    The hook keeps three pieces of React state (balance, allowance,
    totalSupply) in step with an ERC20 contract: two polling effects, an
    on-demand allowance query, two event handlers installed through
    [useContractEvent], and two approve actions.

    Every async function of the file has at most one [await].  Its
    synchronous prefix is embedded as a function into [Async]; the part
    after the [await] is a continuation ([Cont]) that the world resumes
    when the awaited call settles.

    A render and the effects it commits are one step of the world.  The
    re-render that follows a state update reads the same container values,
    so its callbacks close over the same values and none of its effects
    with deps re-runs: it is the identity on the world and is left out. *)

From stdpp Require Import gmap strings list.
From Stdlib Require Import ZArith Lia.
From Stdlib Require QArith.

Local Open Scope Z_scope.
Local Open Scope nat_scope.

(** ** Values *)

(** big.js decimals, as exact rationals. *)
Abbreviation Big := QArith_base.Q.

Definition pow10 (d : nat) : positive := Nat.iter d (Pos.mul 10) 1%positive.

(** Modelled from the spec: ../constant/number is not under src/; BIG_ZERO
    is the decimal zero its name states. *)
Definition BIG_ZERO : Big := QArith_base.Qmake 0 1.

(** Modelled from the spec: ../util/format is not under src/.  Section 6,
    Numeric Adapter: toDecimal(rawInteger, decimals), the raw on-chain
    integer divided by 10^decimals (glossary, raw integer representation). *)
Definition bigNum2Big (raw : Z) (decimals : nat) : Big :=
  QArith_base.Qmake raw (pow10 decimals).

(** ethers' [constants.MaxUint256], the literal of the library. *)
Definition MaxUint256 : Z :=
  0xffffffffffffffffffffffffffffffffffffffffffffffffffffffffffffffff%Z.

(** JS truthiness of a string: every string but the empty one. *)
Definition truthy (s : string) : bool :=
  match s with EmptyString => false | String _ _ => true end.

(** [x === account] for a string [x]; [account] of the Connection container
    is a string, null or undefined. *)
Definition strict_eq (x : string) (account : option string) : bool :=
  bool_decide (account = Some x).

(** ** Objects of the containers, by identity *)

Definition Erc20 := nat.
Definition Provider := nat.
Definition Signer := nat.

(** A contract binding: the object [erc20.attach(address)] returns. *)
Record Contract := { c_id : nat; c_address : string }.

#[global] Instance Contract_eq_dec : EqDecision Contract.
Proof. solve_decision. Defined.

(** What one render reads from the containers and its arguments. *)
Record Props := {
  erc20 : option Erc20;
  multicallProvider : option Provider;
  address : string;
  account : option string;
  signer : option Signer;
  decimals : nat;
}.

(** ** The view state: the three [useState] cells *)

Record ViewState := {
  balance : Big;
  allowance : gmap string Big;
  totalSupply : Big;
}.

Definition setBalance (v : Big) (s : ViewState) : ViewState :=
  {| balance := v; allowance := allowance s; totalSupply := totalSupply s |}.

Definition setTotalSupply (v : Big) (s : ViewState) : ViewState :=
  {| balance := balance s; allowance := allowance s; totalSupply := v |}.

Definition setAllowance (f : gmap string Big -> gmap string Big) (s : ViewState)
  : ViewState :=
  {| balance := balance s; allowance := f (allowance s);
     totalSupply := totalSupply s |}.

(** useState(BIG_ZERO), useState({}), useState(BIG_ZERO) *)
Definition initial_view : ViewState :=
  {| balance := BIG_ZERO; allowance := ∅; totalSupply := BIG_ZERO |}.

(** ** Calls that leave the hook, and async functions *)

Inductive Arg :=
| ArgAddress (a : string)
| ArgUint (n : Z).

Inductive TransactionAction := APPROVE.

Inductive Call :=
(** multicallProvider.all([new MulticallContract(target, ..).method(args)]) *)
| MulticallAll (p : Provider) (target : string) (method : string) (args : list Arg)
(** contract.method(args), a read through the attached binding *)
| ContractRead (c : Contract) (method : string) (args : list Arg)
(** executeWithGasLimit(contract.connect(signer), method, args, {action, ..}) *)
| ExecuteWithGasLimit (c : Contract) (s : option Signer) (method : string)
    (args : list Arg) (action : TransactionAction).

Inductive Error :=
| TypeError_null           (** property access on null *)
| CallFailed (reason : string).

(** The code after the single [await] of each async function. *)
Inductive Cont :=
| SetTotalSupply (decimals : nat)   (** setTotalSupply(bigNum2Big(r, decimals)) *)
| SetBalance (decimals : nat)       (** setBalance(bigNum2Big(r, decimals)) *)
| MergeAllowance (spender : string) (decimals : nat)
    (** setAllowance(prev => ({...prev, [spender]: bigNum2Big(r, decimals)})) *)
| ReturnReceipt.                    (** return receipt *)

(** The synchronous prefix of an async function: it returns at once, it
    throws before any call, or it issues one call and suspends. *)
Inductive Async :=
| Done
| Raise (e : Error)
| Await (c : Call) (k : Cont).

Definition resume (k : Cont) (raw : Z) (s : ViewState) : ViewState :=
  match k with
  | SetTotalSupply d => setTotalSupply (bigNum2Big raw d) s
  | SetBalance d => setBalance (bigNum2Big raw d) s
  | MergeAllowance spender d =>
      setAllowance (fun prev => <[spender := bigNum2Big raw d]> prev) s
  | ReturnReceipt => s
  end.

(** ** The async functions of useToken *)

Definition fetchToken (p : Props) : Async :=
  match erc20 p, multicallProvider p with
  | Some _, Some prov =>
      if truthy (address p)
      then Await (MulticallAll prov (address p) "totalSupply" [])
                 (SetTotalSupply (decimals p))
      else Done
  | _, _ => Done
  end.

Definition fetchBalance (p : Props) : Async :=
  match erc20 p, multicallProvider p, account p with
  | Some _, Some prov, Some acc =>
      if truthy (address p) && truthy acc
      then Await (MulticallAll prov (address p) "balanceOf" [ArgAddress acc])
                 (SetBalance (decimals p))
      else Done
  | _, _, _ => Done
  end.

(** What the callbacks created in one render close over. *)
Record Closure := {
  cl_contract : option Contract;
  cl_account : option string;
  cl_signer : option Signer;
  cl_decimals : nat;
}.

Definition queryAllowanceBySpender (cl : Closure) (spender : string) : Async :=
  match cl_contract cl, cl_account cl with
  | Some c, Some acc =>
      if truthy spender && truthy acc
      then Await (ContractRead c "allowance" [ArgAddress acc; ArgAddress spender])
                 (MergeAllowance spender (cl_decimals cl))
      else Done
  | _, _ => Done
  end.

(** The handler passed to useContractEvent(contract, "Transfer", ..).  When
    the guard holds, [account] is the string [from] or [to]. *)
Definition onTransfer (cl : Closure) (from to : string) : Async :=
  match cl_contract cl with
  | Some c =>
      if strict_eq from (cl_account cl) || strict_eq to (cl_account cl)
      then match cl_account cl with
           | Some acc => Await (ContractRead c "balanceOf" [ArgAddress acc])
                               (SetBalance (cl_decimals cl))
           | None => Done
           end
      else Done
  | None => Done
  end.

(** The handler passed to useContractEvent(contract, "Approval", ..) *)
Definition onApproval (cl : Closure) (owner spender : string) : Async :=
  match cl_contract cl with
  | Some c =>
      if strict_eq owner (cl_account cl)
      then Await (ContractRead c "allowance" [ArgAddress owner; ArgAddress spender])
                 (MergeAllowance spender (cl_decimals cl))
      else Done
  | None => Done
  end.

(** ** The action dispatcher *)

(** The function handed to useContractCall for [approveInfinity].
    [contract!] is erased by the compiler: on a null binding the property
    access [contract.connect] throws before executeWithGasLimit is called. *)
Definition approveInfinity_callback (cl : Closure) (contractAddress : string)
  : Async :=
  match cl_contract cl with
  | None => Raise TypeError_null
  | Some c =>
      Await (ExecuteWithGasLimit c (cl_signer cl) "approve"
               [ArgAddress contractAddress; ArgUint MaxUint256] APPROVE)
            ReturnReceipt
  end.

(** The outcome of a mutating call (section 3 of the spec). *)
Inductive PendingActionResult :=
| Receipt (r : Z)
| FailureReason (e : Error).

(** What the caller of a wrapped action holds once the synchronous prefix
    has run: an outcome already, or a call in flight whose settlement gives
    the outcome. *)
Inductive Reported :=
| Resolved (r : option PendingActionResult)
| Executing (c : Call).

(** Modelled from the spec: ./useContractCall is not under src/.  Sections 2
    and 4.3 give the wrapper's contract, "execute and report outcome": the
    action resolves to a PendingActionResult, a receipt or a failure reason
    (section 3), and a failure surfaces to the caller as the resolved
    outcome of the action (section 7). *)
Definition useContractCall {A : Type} (func : A -> Async) (args : A) : Reported :=
  match func args with
  | Done => Resolved None
  | Raise e => Resolved (Some (FailureReason e))
  | Await c _ => Executing c
  end.

Definition network_call (r : Reported) : option Call :=
  match r with Executing c => Some c | Resolved _ => None end.

Definition approveInfinity (cl : Closure) : string -> Reported :=
  useContractCall (approveInfinity_callback cl).

Section Approve.
(** [big2BigNum] of ../util/format, not under src/: the raw integer of a
    decimal amount. *)
Variable big2BigNum : Big -> Z.

Definition approve_callback (cl : Closure) (args : string * Big) : Async :=
  let '(contractAddress, amount) := args in
  match cl_contract cl with
  | None => Raise TypeError_null
  | Some c =>
      Await (ExecuteWithGasLimit c (cl_signer cl) "approve"
               [ArgAddress contractAddress; ArgUint (big2BigNum amount)] APPROVE)
            ReturnReceipt
  end.

Definition approve (cl : Closure) : string * Big -> Reported :=
  useContractCall (approve_callback cl).
End Approve.

(** ** useContractEvent: the stale-callback-safe subscriber *)

Module Subscriber.

(** A function registered with [contract.on]: the [listener] closure of
    one run of the subscribing effect.  [l_fn] is the identity of the
    function object, [l_cell] the [savedCallback] ref it closes over. *)
Record Listener := {
  l_source : Contract;
  l_channel : string;
  l_fn : nat;
  l_cell : nat;
}.

#[global] Instance Listener_eq_dec : EqDecision Listener.
Proof. solve_decision. Defined.

Definition Emitter := list Listener.

Definition listens (c : Contract) (name : string) (l : Listener) : bool :=
  bool_decide (l_source l = c) && bool_decide (l_channel l = name).

(** contract.on(eventName, listener) *)
Definition on (l : Listener) (em : Emitter) : Emitter := em ++ [l].

(** contract.off(eventName, listener): the first registration of that
    function on that channel of that contract goes. *)
Fixpoint off (l : Listener) (em : Emitter) : Emitter :=
  match em with
  | [] => []
  | x :: rest =>
      if listens (l_source l) (l_channel l) x && bool_decide (l_fn x = l_fn l)
      then rest
      else x :: off l rest
  end.

Definition listeners_on (c : Contract) (name : string) (em : Emitter)
  : list Listener :=
  List.filter (listens c name) em.

Section Hook.
Context {Cb : Type}.

(** The memory of one useContractEvent call site. *)
Record Sub := {
  cell : nat;                               (** identity of the useRef cell *)
  savedCallback : option Cb;                (** savedCallback.current *)
  deps : option (option Contract * string); (** deps of the last effect run *)
  cleanup : option Listener;                (** what the returned cleanup removes *)
}.

Definition fresh_sub (cell : nat) : Sub :=
  {| cell := cell; savedCallback := None; deps := None; cleanup := None |}.

(** The subscriber and the part of the world its effects touch. *)
Record St := {
  sub : Sub;
  emitter : Emitter;
  next_fn : nat;
}.

Definition deps_changed (s : Sub) (contract : option Contract) (name : string)
  : bool :=
  negb (bool_decide (deps s = Some (contract, name))).

(** The cleanup returned by the last run of the subscribing effect. *)
Definition run_cleanup (st : St) : St :=
  match cleanup (sub st) with
  | Some l =>
      {| sub := {| cell := cell (sub st);
                   savedCallback := savedCallback (sub st);
                   deps := deps (sub st); cleanup := None |};
         emitter := off l (emitter st);
         next_fn := next_fn st |}
  | None => st
  end.

(** useEffect(() => { savedCallback.current = callback }) *)
Definition save_callback (callback : Cb) (st : St) : St :=
  {| sub := {| cell := cell (sub st); savedCallback := Some callback;
               deps := deps (sub st); cleanup := cleanup (sub st) |};
     emitter := emitter st;
     next_fn := next_fn st |}.

(** The body of the second effect. *)
Definition subscribe (contract : option Contract) (name : string) (st : St)
  : St :=
  match contract with
  | Some c =>
      if truthy name
      then
        let l := {| l_source := c; l_channel := name;
                    l_fn := next_fn st; l_cell := cell (sub st) |} in
        {| sub := {| cell := cell (sub st);
                     savedCallback := savedCallback (sub st);
                     deps := Some (contract, name); cleanup := Some l |};
           emitter := on l (emitter st);
           next_fn := S (next_fn st) |}
      else
        {| sub := {| cell := cell (sub st);
                     savedCallback := savedCallback (sub st);
                     deps := Some (contract, name); cleanup := None |};
           emitter := emitter st;
           next_fn := next_fn st |}
  | None =>
      {| sub := {| cell := cell (sub st);
                   savedCallback := savedCallback (sub st);
                   deps := Some (contract, name); cleanup := None |};
         emitter := emitter st;
         next_fn := next_fn st |}
  end.

(** React runs the cleanups of the effects whose deps changed, then the
    effect bodies in the order of the hook calls. *)
Definition destroy_phase (contract : option Contract) (name : string)
  (st : St) : St :=
  if deps_changed (sub st) contract name then run_cleanup st else st.

Definition create_phase (contract : option Contract) (name : string)
  (callback : Cb) (st : St) : St :=
  let st1 := save_callback callback st in
  if deps_changed (sub st) contract name
  then subscribe contract name st1
  else st1.

(** The states the world goes through while the effects of one call
    useContractEvent(contract, eventName, callback) are committed. *)
Definition render_instants (contract : option Contract) (name : string)
  (callback : Cb) (st : St) : list St :=
  let st1 := destroy_phase contract name st in
  let st2 := save_callback callback st1 in
  let st3 := create_phase contract name callback st1 in
  [st1; st2; st3].

(** One call useContractEvent(contract, eventName, callback), with the
    effects it commits. *)
Definition useContractEvent (contract : option Contract) (name : string)
  (callback : Cb) (st : St) : St :=
  create_phase contract name callback (destroy_phase contract name st).

(** The owning component is torn down: every remaining cleanup runs. *)
Definition unmount (st : St) : St := run_cleanup st.

(** [listener(...args)]: the call goes to whatever the cell holds now. *)
Definition listener (s : Sub) (l : Listener) : option Cb :=
  if bool_decide (l_cell l = cell s) then savedCallback s else None.

(** The contract emits on a channel: the callbacks that get called. *)
Definition deliver (c : Contract) (name : string) (st : St) : list Cb :=
  omap (listener (sub st)) (listeners_on c name (emitter st)).

(** The first render of the call site. *)
Definition first_render (cell : nat) (em : Emitter) (next : nat)
  (contract : option Contract) (name : string) (callback : Cb) : St :=
  useContractEvent contract name callback
    {| sub := fresh_sub cell; emitter := em; next_fn := next |}.

(** A run of renders, each with its own arguments. *)
Definition renders (rs : list (option Contract * string * Cb)) (st : St) : St :=
  foldl (fun st r => useContractEvent r.1.1 r.1.2 r.2 st) st rs.

(** Every state the world goes through during such a run. *)
Fixpoint instants (rs : list (option Contract * string * Cb)) (st : St)
  : list St :=
  match rs with
  | [] => []
  | r :: rest =>
      render_instants r.1.1 r.1.2 r.2 st
        ++ instants rest (useContractEvent r.1.1 r.1.2 r.2 st)
  end.
End Hook.

Arguments Sub : clear implicits.
Arguments St : clear implicits.

(** The listeners a subscriber has on a pair at this instant. *)
Definition live {Cb} (c : Contract) (name : string) (st : St Cb) : nat :=
  length (List.filter (fun l => bool_decide (l_cell l = cell (sub st)))
            (listeners_on c name (emitter st))).

End Subscriber.

(** ** The whole hook as a transition system *)

Import Subscriber.

(** The two callbacks useToken passes to useContractEvent, each with the
    values its closure captured in the render that created it. *)
Inductive Callback :=
| TransferHandler (cl : Closure)
| ApprovalHandler (cl : Closure).

(** Calling a saved callback with the two leading event arguments. *)
Definition invoke (cb : Callback) (a b : string) : Async :=
  match cb with
  | TransferHandler cl => onTransfer cl a b
  | ApprovalHandler cl => onApproval cl a b
  end.

(** A call in flight, with the code that runs when it settles. *)
Record Request := { r_id : nat; r_call : Call; r_cont : Cont }.

Record World := {
  view : ViewState;
  props : Props;                   (** what the latest render read *)
  contract : option Contract;      (** the useMemo cell *)
  subTransfer : Sub Callback;
  subApproval : Sub Callback;
  listeners : Emitter;             (** every function registered with [on] *)
  pending : list Request;
  next_req : nat;
  next_listener : nat;
  next_obj : nat;
}.

Definition set_view (f : ViewState -> ViewState) (w : World) : World :=
  {| view := f (view w); props := props w; contract := contract w;
     subTransfer := subTransfer w; subApproval := subApproval w;
     listeners := listeners w; pending := pending w; next_req := next_req w;
     next_listener := next_listener w; next_obj := next_obj w |}.

Definition set_pending (f : list Request -> list Request) (w : World) : World :=
  {| view := view w; props := props w; contract := contract w;
     subTransfer := subTransfer w; subApproval := subApproval w;
     listeners := listeners w; pending := f (pending w); next_req := next_req w;
     next_listener := next_listener w; next_obj := next_obj w |}.

(** The closure values of the latest render. *)
Definition closure_of (w : World) : Closure :=
  {| cl_contract := contract w; cl_account := account (props w);
     cl_signer := signer (props w); cl_decimals := decimals (props w) |}.

(** Start an async function: a call it awaits goes in flight. *)
Definition spawn (a : Async) (w : World) : World :=
  match a with
  | Await c k =>
      {| view := view w; props := props w; contract := contract w;
         subTransfer := subTransfer w; subApproval := subApproval w;
         listeners := listeners w;
         pending := pending w ++ [{| r_id := next_req w; r_call := c; r_cont := k |}];
         next_req := S (next_req w);
         next_listener := next_listener w; next_obj := next_obj w |}
  | Done | Raise _ => w
  end.

Inductive Site := TransferSite | ApprovalSite.

Definition sub_at (site : Site) (w : World) : Sub Callback :=
  match site with
  | TransferSite => subTransfer w
  | ApprovalSite => subApproval w
  end.

(** Run a step of one useContractEvent call site inside the hook. *)
Definition on_site (site : Site) (f : St Callback -> St Callback) (w : World)
  : World :=
  let st := f {| sub := sub_at site w; emitter := listeners w;
                 next_fn := next_listener w |} in
  {| view := view w; props := props w; contract := contract w;
     subTransfer := match site with TransferSite => sub st | _ => subTransfer w end;
     subApproval := match site with ApprovalSite => sub st | _ => subApproval w end;
     listeners := emitter st; pending := pending w; next_req := next_req w;
     next_listener := next_fn st; next_obj := next_obj w |}.

(** erc20?.attach(address) || null *)
Definition attach (p : Props) (id : nat) : option Contract :=
  match erc20 p with
  | Some _ => Some {| c_id := id; c_address := address p |}
  | None => None
  end.

(** The effects of one committed render: cleanups first, then the effect
    bodies in the order of the hook calls.  [run_token] and [run_balance]
    say whether the deps of the two polling effects changed. *)
Definition commit (run_token run_balance : bool) (w : World) : World :=
  let p := props w in
  let c := contract w in
  let w1 := on_site TransferSite (destroy_phase c "Transfer") w in
  let w2 := on_site ApprovalSite (destroy_phase c "Approval") w1 in
  let w3 := if run_token then spawn (fetchToken p) w2 else w2 in
  let w4 := if run_balance then spawn (fetchBalance p) w3 else w3 in
  let w5 := on_site TransferSite
              (create_phase c "Transfer" (TransferHandler (closure_of w))) w4 in
  on_site ApprovalSite
    (create_phase c "Approval" (ApprovalHandler (closure_of w))) w5.

(** The first render of useToken(address, decimals). *)
Definition mount (p : Props) : World :=
  commit true true
    {| view := initial_view; props := p; contract := attach p 0;
       subTransfer := fresh_sub 0; subApproval := fresh_sub 1;
       listeners := []; pending := []; next_req := 0; next_listener := 0;
       next_obj := 1 |}.

(** deps [erc20, multicallProvider, address, decimals] *)
Definition token_deps_changed (old p : Props) : bool :=
  negb (bool_decide (erc20 p = erc20 old ∧ multicallProvider p = multicallProvider old
                     ∧ address p = address old ∧ decimals p = decimals old)).

(** deps [erc20, multicallProvider, address, account, decimals] *)
Definition balance_deps_changed (old p : Props) : bool :=
  negb (bool_decide (erc20 p = erc20 old ∧ multicallProvider p = multicallProvider old
                     ∧ address p = address old ∧ account p = account old
                     ∧ decimals p = decimals old)).

(** deps [erc20, address] of the useMemo *)
Definition memo_deps_changed (old p : Props) : bool :=
  negb (bool_decide (erc20 p = erc20 old ∧ address p = address old)).

(** A later render, with what the containers hold now. *)
Definition rerender (p : Props) (w : World) : World :=
  let old := props w in
  let recompute := memo_deps_changed old p in
  commit (token_deps_changed old p) (balance_deps_changed old p)
    {| view := view w; props := p;
       contract := if recompute then attach p (next_obj w) else contract w;
       subTransfer := subTransfer w; subApproval := subApproval w;
       listeners := listeners w; pending := pending w; next_req := next_req w;
       next_listener := next_listener w;
       next_obj := if recompute then S (next_obj w) else next_obj w |}.

Definition find_request (id : nat) (rs : list Request) : option Request :=
  List.find (fun r => bool_decide (r_id r = id)) rs.

Definition drop_request (id : nat) (rs : list Request) : list Request :=
  List.filter (fun r => negb (bool_decide (r_id r = id))) rs.

(** The call of request [id] settles.  A read resolves to the raw integer
    (for a batched read, the one element the destructuring takes); a
    failure rejects the promise the async function returned, and no code
    after the await runs. *)
Definition settle (id : nat) (answer : Z + Error) (w : World) : World :=
  match find_request id (pending w) with
  | None => w
  | Some r =>
      let w' := set_pending (drop_request id) w in
      match answer with
      | inl raw => set_view (resume (r_cont r) raw) w'
      | inr _ => w'
      end
  end.

(** The saved callback a registered listener function calls. *)
Definition callback_of (w : World) (l : Listener) : option Callback :=
  match listener (subTransfer w) l with
  | Some cb => Some cb
  | None => listener (subApproval w) l
  end.

(** Contract [c] emits on [channel] with leading arguments [a], [b]. *)
Definition emit (c : Contract) (channel : string) (a b : string) (w : World)
  : World :=
  foldl (fun w cb => spawn (invoke cb a b) w) w
    (omap (callback_of w) (listeners_on c channel (listeners w))).

Inductive Action :=
| Render (p : Props)
| Settle (id : nat) (answer : Z + Error)
| Emit (c : Contract) (channel : string) (a b : string)
| QueryAllowanceBySpender (spender : string).

Definition step (w : World) (act : Action) : World :=
  match act with
  | Render p => rerender p w
  | Settle id answer => settle id answer w
  | Emit c channel a b => emit c channel a b w
  | QueryAllowanceBySpender spender =>
      spawn (queryAllowanceBySpender (closure_of w) spender) w
  end.

Definition run (w : World) (acts : list Action) : World := foldl step w acts.

Inductive reachable : World -> Prop :=
| reach_mount p : reachable (mount p)
| reach_step w act : reachable w -> reachable (step w act).

(** The continuation an action resumes, if it resumes one. *)
Definition resumed (w : World) (act : Action) : option Cont :=
  match act with
  | Settle id (inl _) => r_cont <$> find_request id (pending w)
  | _ => None
  end.

(** The continuations resumed along a run, oldest first. *)
Fixpoint resumed_along (w : World) (acts : list Action) : list Cont :=
  match acts with
  | [] => []
  | act :: rest =>
      match resumed w act with
      | Some k => k :: resumed_along (step w act) rest
      | None => resumed_along (step w act) rest
      end
  end.

(** The feed a continuation writes. *)
Inductive Feed := TotalSupplyFeed | BalanceFeed | AllowanceFeed.

Definition writes (k : Cont) : option Feed :=
  match k with
  | SetTotalSupply _ => Some TotalSupplyFeed
  | SetBalance _ => Some BalanceFeed
  | MergeAllowance _ _ => Some AllowanceFeed
  | ReturnReceipt => None
  end.

(** ** Concrete runs *)

Definition propsA : Props :=
  {| erc20 := Some 7; multicallProvider := Some 3; address := "0xT1";
     account := Some "0xME"; signer := Some 5; decimals := 2 |}.

Definition propsB : Props :=
  {| erc20 := Some 7; multicallProvider := Some 3; address := "0xT2";
     account := Some "0xME"; signer := Some 5; decimals := 2 |}.

(** Two renders: the reads of the first (requests 0 and 1) are still in
    flight when the address changes and the reads of the second (2 and 3)
    are issued. *)
Definition overlapping : World := rerender propsB (mount propsA).

(** No binding: the Contract container has no erc20 yet. *)
Definition propsNone : Props :=
  {| erc20 := None; multicallProvider := Some 3; address := "0xT1";
     account := Some "0xME"; signer := None; decimals := 2 |}.

(** The ids in flight are older than the next one to be given out. *)
Definition pending_fresh (w : World) : Prop :=
  Forall (fun r => r_id r < next_req w) (pending w).

(** The feeds a run has written: those of the continuations it resumed. *)
Definition written (w : World) (acts : list Action) : list Feed :=
  omap writes (resumed_along w acts).

(** ** The invariant of the hook *)

(** One useContractEvent call site, seen from the hook: its cell holds the
    callback of the latest render, its effect last ran for the current
    contract, and it has a listener registered exactly when there is a
    contract. *)
Definition site_ok (w : World) (s : Sub Callback) (name : string) (cellid : nat)
  (cb : Callback) : Prop :=
  cell s = cellid
  ∧ savedCallback s = Some cb
  ∧ deps s = Some (contract w, name)
  ∧ match contract w, cleanup s with
    | Some c, Some l => l_source l = c ∧ l_channel l = name ∧ l_cell l = cellid
    | None, None => True
    | _, _ => False
    end.

Record wf (w : World) : Prop := {
  wf_transfer :
    site_ok w (subTransfer w) "Transfer" 0 (TransferHandler (closure_of w));
  wf_approval :
    site_ok w (subApproval w) "Approval" 1 (ApprovalHandler (closure_of w));
  wf_listeners :
    listeners w = option_list (cleanup (subTransfer w))
                  ++ option_list (cleanup (subApproval w));
  wf_pending : pending_fresh w;
}.

(** ** The invariant of one subscriber *)

(** Among listeners [em0] of other subscribers, the subscriber with cell
    [cellid] has registered exactly the listener its pending cleanup
    removes, if any; that listener is its own and newer than [em0]. *)
Definition sub_inv {Cb : Type} (cellid next : nat) (em0 : Emitter) (st : St Cb)
  : Prop :=
  cell (sub st) = cellid
  ∧ next ≤ next_fn st
  ∧ emitter st = em0 ++ option_list (cleanup (sub st))
  ∧ (forall l, cleanup (sub st) = Some l -> l_cell l = cellid ∧ next ≤ l_fn l).

(** A foreign listener: of another cell, and registered before [next]. *)
Definition foreign (cellid next : nat) (l : Listener) : Prop :=
  l_cell l ≠ cellid ∧ l_fn l < next.

(** ** Bookkeeping for the further properties *)

(** The request an async function puts in flight when started with [id]
    as the next request id. *)
Definition request_of (id : nat) (a : Async) : list Request :=
  match a with
  | Await c k => [{| r_id := id; r_call := c; r_cont := k |}]
  | Done | Raise _ => []
  end.

(** A wallet not yet connected: everything but the account is there. *)
Definition propsNoAccount : Props :=
  {| erc20 := Some 7; multicallProvider := Some 3; address := "0xT1";
     account := None; signer := None; decimals := 2 |}.

(** The same token read with another account connected. *)
Definition propsOther : Props :=
  {| erc20 := Some 7; multicallProvider := Some 3; address := "0xT1";
     account := Some "0xYOU"; signer := Some 6; decimals := 2 |}.

(** The same token with another number of decimals passed to the hook. *)
Definition propsDecimals : Props :=
  {| erc20 := Some 7; multicallProvider := Some 3; address := "0xT1";
     account := Some "0xME"; signer := Some 5; decimals := 6 |}.

(** The pair the subscribing effect registers a listener on, given its
    arguments: none for an absent source or an empty channel name. *)
Definition target (d : option (option Contract * string))
  : option (Contract * string) :=
  match d with
  | Some (Some c, name) => if truthy name then Some (c, name) else None
  | Some (None, _) | None => None
  end.

(** Between renders, the listener the cleanup will remove is the one on
    the pair of the last effect run. *)
Definition sub_linked {Cb : Type} (st : St Cb) : Prop :=
  (fun l => (l_source l, l_channel l)) <$> cleanup (sub st) = target (deps (sub st)).

(** The bound contract is an object that exists: its identity is older than
    the next one [attach] will give out. *)
Definition contract_fresh (w : World) : Prop :=
  forall c, contract w = Some c -> c_id c < next_obj w.

(** * Properties *)

(** ** Requests in flight *)

Lemma find_request_drop_ne (a b : nat) (rs : list Request) :
  a ≠ b -> find_request a (drop_request b rs) = find_request a rs.
Proof.
  intros Hab. unfold find_request, drop_request.
  induction rs as [|r rs IH]; simpl; [reflexivity|].
  destruct (decide (r_id r = b)) as [Hb|Hb].
  - rewrite bool_decide_eq_true_2 by exact Hb. simpl.
    rewrite bool_decide_eq_false_2 by congruence. exact IH.
  - rewrite (bool_decide_eq_false_2 (r_id r = b)) by exact Hb. simpl.
    destruct (bool_decide (r_id r = a)); [reflexivity | exact IH].
Qed.

Lemma find_request_Some (id : nat) (rs : list Request) (r : Request) :
  find_request id rs = Some r -> r ∈ rs ∧ r_id r = id.
Proof.
  unfold find_request. intros H. apply find_some in H as [Hin Hid].
  split; [by apply list_elem_of_In | by apply bool_decide_eq_true in Hid].
Qed.

Lemma find_request_fresh (id : nat) (rs : list Request) :
  Forall (fun r => r_id r < id) rs -> find_request id rs = None.
Proof.
  intros Hall. destruct (find_request id rs) as [r|] eqn:E; [|reflexivity].
  apply find_request_Some in E as [Hin Hid].
  rewrite Forall_forall in Hall. specialize (Hall r Hin). lia.
Qed.

Lemma find_request_app_fresh (id : nat) (rs : list Request) (r : Request) :
  Forall (fun x => r_id x < id) rs -> r_id r = id ->
  find_request id (rs ++ [r]) = Some r.
Proof.
  intros Hall Hid. unfold find_request.
  induction rs as [|x rs IH]; simpl.
  - by rewrite bool_decide_eq_true_2.
  - inversion Hall as [|? ? Hx Hrest]; subst.
    rewrite bool_decide_eq_false_2 by lia. by apply IH.
Qed.

Lemma find_request_app_old (id : nat) (rs : list Request) (r : Request) :
  r_id r ≠ id -> find_request id (rs ++ [r]) = find_request id rs.
Proof.
  intros Hid. unfold find_request.
  induction rs as [|x rs IH]; simpl.
  - by rewrite bool_decide_eq_false_2.
  - destruct (bool_decide (r_id x = id)); [reflexivity | exact IH].
Qed.

Lemma settle_resolved (id : nat) (raw : Z) (w : World) (r : Request) :
  find_request id (pending w) = Some r ->
  settle id (inl raw) w
  = set_view (resume (r_cont r) raw) (set_pending (drop_request id) w).
Proof. intros H. unfold settle. by rewrite H. Qed.

Lemma settle_rejected (id : nat) (e : Error) (w : World) :
  settle id (inr e) w
  = match find_request id (pending w) with
    | Some _ => set_pending (drop_request id) w
    | None => w
    end.
Proof. unfold settle. by destruct (find_request id (pending w)). Qed.

Lemma view_spawn (a : Async) (w : World) : view (spawn a w) = view w.
Proof. by destruct a. Qed.

Lemma view_on_site (site : Site) (f : St Callback -> St Callback) (w : World) :
  view (on_site site f w) = view w.
Proof. reflexivity. Qed.

Lemma view_commit (t b : bool) (w : World) : view (commit t b w) = view w.
Proof.
  unfold commit. rewrite !view_on_site.
  destruct b, t; rewrite ?view_spawn, ?view_on_site; reflexivity.
Qed.

Lemma view_rerender (p : Props) (w : World) : view (rerender p w) = view w.
Proof. unfold rerender. by rewrite view_commit. Qed.

Lemma view_emit (c : Contract) (channel a b : string) (w : World) :
  view (emit c channel a b w) = view w.
Proof.
  unfold emit.
  generalize (omap (callback_of w) (listeners_on c channel (listeners w))).
  intros cbs. revert w. induction cbs as [|cb cbs IH]; intros w; simpl.
  - reflexivity.
  - rewrite IH. apply view_spawn.
Qed.

(** ** Polling feeds *)

(** C1, as stated, fails.  Request A (0, totalSupply of the first address)
    is issued before request B (2, totalSupply of the second) and settles
    after it: the stored totalSupply is A's 100/10^2, not B's 500/10^2.
    The same holds of the balance feed with requests 1 and 3. *)
Lemma C1_stale_read_overwrites :
  let w := run overlapping
             [Settle 2 (inl 500%Z); Settle 3 (inl 900%Z);
              Settle 0 (inl 100%Z); Settle 1 (inl 200%Z)] in
  (r_cont <$> find_request 0 (pending overlapping) = Some (SetTotalSupply 2)
   ∧ r_cont <$> find_request 2 (pending overlapping) = Some (SetTotalSupply 2)
   ∧ r_cont <$> find_request 1 (pending overlapping) = Some (SetBalance 2)
   ∧ r_cont <$> find_request 3 (pending overlapping) = Some (SetBalance 2))
  ∧ (totalSupply (view w) = bigNum2Big 100 2
     ∧ totalSupply (view w) ≠ bigNum2Big 500 2)
  ∧ (balance (view w) = bigNum2Big 200 2
     ∧ balance (view w) ≠ bigNum2Big 900 2).
Proof.
  vm_compute. repeat split; discriminate.
Qed.

(** C1, amended: the hook has no generation counter and drops nothing.
    When two reads A and B of a feed are both in flight and B settles
    before A, the stored value of the feed is A's result: the read that
    completes last wins, whichever was issued first. *)
Theorem C1_last_completion_wins (w : World) (a b : nat) (reqA reqB : Request)
    (ra rb : Z) :
  a ≠ b ->
  find_request a (pending w) = Some reqA ->
  find_request b (pending w) = Some reqB ->
  let w' := settle a (inl ra) (settle b (inl rb) w) in
  (forall d, r_cont reqA = SetTotalSupply d ->
             totalSupply (view w') = bigNum2Big ra d)
  ∧ (forall d, r_cont reqA = SetBalance d ->
               balance (view w') = bigNum2Big ra d).
Proof.
  intros Hab Ha Hb w'. subst w'.
  rewrite (settle_resolved b rb w reqB Hb).
  rewrite (settle_resolved a ra _ reqA).
  - split; intros d Hk; rewrite Hk; reflexivity.
  - simpl. by rewrite find_request_drop_ne.
Qed.

Lemma C1_last_completion_wins_witness :
  totalSupply (view (settle 0 (inl 100%Z) (settle 2 (inl 500%Z) overlapping)))
  = bigNum2Big 100 2.
Proof.
  refine (proj1 (C1_last_completion_wins overlapping 0 2
                   {| r_id := 0; r_call := MulticallAll 3 "0xT1" "totalSupply" [];
                      r_cont := SetTotalSupply 2 |}
                   {| r_id := 2; r_call := MulticallAll 3 "0xT2" "totalSupply" [];
                      r_cont := SetTotalSupply 2 |}
                   100%Z 500%Z _ _ _) 2 _).
  - lia.
  - reflexivity.
  - reflexivity.
  - reflexivity.
Defined.

(** C9.  A read that fails leaves the view state as it was, whatever the
    feed: the request leaves the in-flight list and no setter runs. *)
Theorem C9_failed_read_keeps_view (w : World) (id : nat) (e : Error) :
  view (step w (Settle id (inr e))) = view w
  ∧ find_request id (pending (step w (Settle id (inr e)))) = None.
Proof.
  simpl. rewrite settle_rejected.
  destruct (find_request id (pending w)) as [r|] eqn:E.
  - split; [reflexivity|]. simpl.
    unfold find_request, drop_request.
    destruct (find _ _) as [x|] eqn:F; [|reflexivity].
    apply find_some in F as [Hin Hid].
    apply filter_In in Hin as [_ Hne].
    rewrite Hid in Hne. discriminate.
  - by split.
Qed.

(** ** The initial snapshot *)

Lemma view_mount (p : Props) : view (mount p) = initial_view.
Proof. unfold mount. by rewrite view_commit. Qed.

Lemma view_settle (id : nat) (raw : Z) (w : World) (r : Request) :
  find_request id (pending w) = Some r ->
  view (settle id (inl raw) w) = resume (r_cont r) raw (view w).
Proof. intros H. by rewrite (settle_resolved id raw w r H). Qed.

(** A step changes the view only by resuming a continuation. *)
Lemma view_step (w : World) (act : Action) :
  match resumed w act with
  | Some k => exists raw, view (step w act) = resume k raw (view w)
  | None => view (step w act) = view w
  end.
Proof.
  destruct act as [p|id [raw|e]|c ch a b|spender]; simpl.
  - apply view_rerender.
  - destruct (find_request id (pending w)) as [r|] eqn:E; simpl.
    + exists raw. by apply view_settle.
    + unfold settle. by rewrite E.
  - rewrite settle_rejected. by destruct (find_request id (pending w)).
  - apply view_emit.
  - apply view_spawn.
Qed.

Lemma resume_other_feed (k : Cont) (raw : Z) (v : ViewState) :
  (writes k ≠ Some TotalSupplyFeed -> totalSupply (resume k raw v) = totalSupply v)
  ∧ (writes k ≠ Some BalanceFeed -> balance (resume k raw v) = balance v)
  ∧ (writes k ≠ Some AllowanceFeed -> allowance (resume k raw v) = allowance v).
Proof. destruct k; simpl; repeat split; congruence. Qed.

Lemma unwritten_feed_unchanged (acts : list Action) : forall w : World,
  (TotalSupplyFeed ∉ written w acts ->
     totalSupply (view (run w acts)) = totalSupply (view w))
  ∧ (BalanceFeed ∉ written w acts ->
     balance (view (run w acts)) = balance (view w))
  ∧ (AllowanceFeed ∉ written w acts ->
     allowance (view (run w acts)) = allowance (view w)).
Proof.
  induction acts as [|act acts IH]; intros w.
  - by repeat split.
  - unfold written, run in *. simpl.
    specialize (IH (step w act)) as (IHt & IHb & IHa).
    pose proof (view_step w act) as Hstep.
    destruct (resumed w act) as [k|].
    + destruct Hstep as [raw Hv].
      destruct (resume_other_feed k raw (view w)) as (Ht & Hb & Ha).
      simpl. destruct (writes k) as [f|] eqn:Ef; simpl.
      * repeat split; intros Hnot; apply not_elem_of_cons in Hnot as [Hne Hnot].
        -- rewrite (IHt Hnot), Hv. apply Ht. congruence.
        -- rewrite (IHb Hnot), Hv. apply Hb. congruence.
        -- rewrite (IHa Hnot), Hv. apply Ha. congruence.
      * repeat split; intros Hnot.
        -- rewrite (IHt Hnot), Hv. by apply Ht.
        -- rewrite (IHb Hnot), Hv. by apply Hb.
        -- rewrite (IHa Hnot), Hv. by apply Ha.
    + repeat split; intros Hnot.
      * by rewrite (IHt Hnot), Hstep.
      * by rewrite (IHb Hnot), Hstep.
      * by rewrite (IHa Hnot), Hstep.
Qed.

(** C10.  Right after the first render the view is the zero/empty snapshot,
    and along every run each field keeps that value until a read of its
    own feed resolves: balance and totalSupply are BIG_ZERO, allowance is
    the empty mapping.  The fields are values, never absent. *)
Theorem C10_zero_until_first_read (p : Props) (acts : list Action) :
  let w := run (mount p) acts in
  view (mount p) = initial_view
  ∧ (TotalSupplyFeed ∉ written (mount p) acts -> totalSupply (view w) = BIG_ZERO)
  ∧ (BalanceFeed ∉ written (mount p) acts -> balance (view w) = BIG_ZERO)
  ∧ (AllowanceFeed ∉ written (mount p) acts -> allowance (view w) = ∅).
Proof.
  intros w. subst w.
  destruct (unwritten_feed_unchanged acts (mount p)) as (Ht & Hb & Ha).
  rewrite view_mount in *.
  repeat split; intros Hnot; [rewrite Ht | rewrite Hb | rewrite Ha]; done.
Qed.

(** A run in which the totalSupply read has resolved and the balance read
    has failed: balance and allowance still hold the initial snapshot. *)
Lemma C10_zero_until_first_read_witness :
  let w := run (mount propsA)
             [Settle 0 (inl 100%Z); Settle 1 (inr (CallFailed "timeout"))] in
  totalSupply (view w) = bigNum2Big 100 2
  ∧ balance (view w) = BIG_ZERO
  ∧ allowance (view w) = ∅.
Proof.
  pose proof (C10_zero_until_first_read propsA
                [Settle 0 (inl 100%Z); Settle 1 (inr (CallFailed "timeout"))])
    as (_ & _ & Hb & Ha).
  split; [reflexivity|].
  split; [apply Hb | apply Ha]; vm_compute; intros H;
    repeat (apply elem_of_cons in H as [H|H]; [discriminate|]);
    by apply elem_of_nil in H.
Defined.

(** ** The action dispatcher and the on-demand query *)

Lemma MaxUint256_value : MaxUint256 = (2 ^ 256 - 1)%Z.
Proof. reflexivity. Qed.

(** C2.  With no contract binding, approve makes no network call: the
    callback fails on [contract.connect] before executeWithGasLimit is
    reached, and the wrapper reports that failure as the resolved outcome.
    queryAllowanceBySpender returns at once, and as a step of the hook it
    changes nothing: no read goes in flight and the view is as before. *)
Theorem C2_no_binding_no_call (big2BigNum : Big -> Z) (w : World)
    (spender : string) (amount : Big) :
  contract w = None ->
  approve_callback big2BigNum (closure_of w) (spender, amount) = Raise TypeError_null
  ∧ approve big2BigNum (closure_of w) (spender, amount)
    = Resolved (Some (FailureReason TypeError_null))
  ∧ network_call (approve big2BigNum (closure_of w) (spender, amount)) = None
  ∧ queryAllowanceBySpender (closure_of w) spender = Done
  ∧ step w (QueryAllowanceBySpender spender) = w.
Proof.
  intros Hc.
  unfold approve, useContractCall, approve_callback, queryAllowanceBySpender.
  simpl. rewrite Hc. simpl. unfold queryAllowanceBySpender. simpl. rewrite Hc.
  by repeat split.
Qed.

Lemma C2_no_binding_no_call_witness :
  contract (mount propsNone) = None
  ∧ network_call (approve QArith_base.Qnum (closure_of (mount propsNone))
                    ("0xAAA", bigNum2Big 5 0)) = None
  ∧ step (mount propsNone) (QueryAllowanceBySpender "0xAAA") = mount propsNone.
Proof.
  split; [reflexivity|].
  pose proof (C2_no_binding_no_call QArith_base.Qnum (mount propsNone)
                "0xAAA" (bigNum2Big 5 0) eq_refl) as (_ & _ & Hn & _ & Hs).
  exact (conj Hn Hs).
Defined.

(** C5.  Whatever the hook holds (view state, props), approveInfinity on a
    bound contract submits one call, the contract's approve with the
    arguments [spender, 2^256 - 1]. *)
Theorem C5_approveInfinity_submits_max (w : World) (c : Contract)
    (spender : string) :
  contract w = Some c ->
  approveInfinity (closure_of w) spender
  = Executing (ExecuteWithGasLimit c (signer (props w)) "approve"
                 [ArgAddress spender; ArgUint (2 ^ 256 - 1)%Z] APPROVE).
Proof.
  intros Hc. unfold approveInfinity, useContractCall, approveInfinity_callback.
  simpl. rewrite Hc. by rewrite MaxUint256_value.
Qed.

Lemma C5_approveInfinity_submits_max_witness :
  network_call
    (approveInfinity
       (closure_of (run (mount propsA)
                      [QueryAllowanceBySpender "0xAAA"; Settle 2 (inl 42%Z)]))
       "0xAAA")
  = Some (ExecuteWithGasLimit {| c_id := 0; c_address := "0xT1" |} (Some 5)
            "approve" [ArgAddress "0xAAA"; ArgUint (2 ^ 256 - 1)%Z] APPROVE).
Proof.
  rewrite (C5_approveInfinity_submits_max
             (run (mount propsA)
                [QueryAllowanceBySpender "0xAAA"; Settle 2 (inl 42%Z)])
             {| c_id := 0; c_address := "0xT1" |} "0xAAA" eq_refl).
  reflexivity.
Defined.

(** ** The invariant holds of every reachable world *)

Lemma on_site_spawn (site : Site) (f : St Callback -> St Callback) (a : Async)
    (w : World) :
  on_site site f (spawn a w) = spawn a (on_site site f w).
Proof. by destruct a. Qed.

Lemma closure_of_spawn (a : Async) (w : World) :
  closure_of (spawn a w) = closure_of w.
Proof. by destruct a. Qed.

Lemma pending_fresh_spawn (a : Async) (w : World) :
  pending_fresh w -> pending_fresh (spawn a w).
Proof.
  unfold pending_fresh. intros H. destruct a as [| |c k]; simpl; try done.
  apply Forall_app. split.
  - eapply Forall_impl; [exact H|]. simpl. intros; lia.
  - apply Forall_singleton. simpl. lia.
Qed.

Lemma wf_spawn (a : Async) (w : World) : wf w -> wf (spawn a w).
Proof.
  intros [Ht Ha Hl Hp]. split.
  - destruct a; exact Ht.
  - destruct a; exact Ha.
  - destruct a; exact Hl.
  - by apply pending_fresh_spawn.
Qed.

Lemma pending_fresh_settle (id : nat) (answer : Z + Error) (w : World) :
  pending_fresh w -> pending_fresh (settle id answer w).
Proof.
  unfold pending_fresh, settle. intros H.
  destruct (find_request id (pending w)) as [r0|]; [|done].
  assert (Forall (fun r => r_id r < next_req w) (drop_request id (pending w))) as H'.
  { rewrite Forall_forall in *. intros r Hr. apply H.
    apply list_elem_of_In. apply list_elem_of_In in Hr.
    unfold drop_request in Hr. by apply filter_In in Hr as [? _]. }
  by destruct answer.
Qed.

Lemma wf_settle (id : nat) (answer : Z + Error) (w : World) :
  wf w -> wf (settle id answer w).
Proof.
  intros Hw. pose proof (pending_fresh_settle id answer w (wf_pending w Hw)) as Hp.
  destruct Hw as [Ht Ha Hl _]. unfold settle in *.
  destruct (find_request id (pending w)); [|by split].
  destruct answer; by split.
Qed.

Lemma wf_emit (c : Contract) (channel a b : string) (w : World) :
  wf w -> wf (emit c channel a b w).
Proof.
  unfold emit.
  generalize (omap (callback_of w) (listeners_on c channel (listeners w))).
  intros cbs. revert w. induction cbs as [|cb cbs IH]; intros w Hw; simpl.
  - exact Hw.
  - apply IH. by apply wf_spawn.
Qed.

(** The polling effects only add requests: they commute with the rest of
    the commit. *)
Lemma commit_spawns_last (t b : bool) (w : World) :
  commit t b w
  = let w' := commit false false w in
    let w3 := if t then spawn (fetchToken (props w)) w' else w' in
    if b then spawn (fetchBalance (props w)) w3 else w3.
Proof.
  unfold commit. destruct t, b; simpl; rewrite ?on_site_spawn; reflexivity.
Qed.

Lemma off_head (l : Listener) (em : Emitter) : off l (l :: em) = em.
Proof.
  simpl. unfold listens. by rewrite !bool_decide_eq_true_2.
Qed.

(** ** One call site: which phase does what *)

Section SubscriberPhases.
Context {Cb : Type}.
Implicit Types (st : St Cb) (c : option Contract) (name : string) (cb : Cb).

Lemma deps_changed_false st c name :
  deps (sub st) = Some (c, name) -> deps_changed (sub st) c name = false.
Proof.
  intros H. unfold deps_changed. by rewrite bool_decide_eq_true_2.
Qed.

Lemma deps_changed_true st c name :
  deps (sub st) ≠ Some (c, name) -> deps_changed (sub st) c name = true.
Proof.
  intros H. unfold deps_changed. by rewrite bool_decide_eq_false_2.
Qed.

Lemma destroy_unchanged st c name :
  deps (sub st) = Some (c, name) -> destroy_phase c name st = st.
Proof. intros H. unfold destroy_phase. by rewrite deps_changed_false. Qed.

Lemma destroy_changed st c name :
  deps (sub st) ≠ Some (c, name) -> destroy_phase c name st = run_cleanup st.
Proof. intros H. unfold destroy_phase. by rewrite deps_changed_true. Qed.

Lemma create_unchanged st c name cb :
  deps (sub st) = Some (c, name) ->
  create_phase c name cb st = save_callback cb st.
Proof. intros H. unfold create_phase. by rewrite deps_changed_false. Qed.

Lemma create_changed st c name cb :
  deps (sub st) ≠ Some (c, name) ->
  create_phase c name cb st = subscribe c name (save_callback cb st).
Proof. intros H. unfold create_phase. by rewrite deps_changed_true. Qed.

Lemma deps_run_cleanup st : deps (sub (run_cleanup st)) = deps (sub st).
Proof. unfold run_cleanup. by destruct (cleanup (sub st)). Qed.
End SubscriberPhases.

Lemma commit_sites (w : World) :
  commit false false w
  = on_site ApprovalSite
      (create_phase (contract w) "Approval" (ApprovalHandler (closure_of w)))
      (on_site TransferSite
         (create_phase (contract w) "Transfer" (TransferHandler (closure_of w)))
         (on_site ApprovalSite (destroy_phase (contract w) "Approval")
            (on_site TransferSite (destroy_phase (contract w) "Transfer") w))).
Proof. reflexivity. Qed.

(** A step of a call site whose outcome is known, as a step of the hook. *)
Lemma on_site_eq (site : Site) (f : St Callback -> St Callback) (w : World)
    (s' : Sub Callback) (em' : Emitter) (n' : nat) :
  f {| sub := sub_at site w; emitter := listeners w; next_fn := next_listener w |}
  = {| sub := s'; emitter := em'; next_fn := n' |} ->
  on_site site f w
  = {| view := view w; props := props w; contract := contract w;
       subTransfer := match site with TransferSite => s' | _ => subTransfer w end;
       subApproval := match site with ApprovalSite => s' | _ => subApproval w end;
       listeners := em'; pending := pending w; next_req := next_req w;
       next_listener := n'; next_obj := next_obj w |}.
Proof. intros H. unfold on_site. by rewrite H. Qed.

Ltac world_fields :=
  cbn [view props contract subTransfer subApproval listeners pending next_req
       next_listener next_obj sub_at sub emitter next_fn cell savedCallback deps
       cleanup closure_of option_list from_option option_rect on app].

Tactic Notation "site_step" uconstr(step) "by" uconstr(lem) :=
  erewrite step;
  [ | world_fields; rewrite lem by (world_fields; congruence);
      unfold run_cleanup, save_callback, subscribe; world_fields;
      rewrite ?off_head; cbn [truthy]; reflexivity ];
  world_fields.

(** Whatever contract the new render computes, the commit re-establishes
    the invariant: with the same binding nothing is re-subscribed, with
    another one both old listeners are removed before the new ones go in. *)
Lemma wf_commit_sites v p c' c sT sA ls pd nr nl no :
  wf {| view := v; props := p; contract := c; subTransfer := sT;
        subApproval := sA; listeners := ls; pending := pd; next_req := nr;
        next_listener := nl; next_obj := no |} ->
  forall p' no',
  wf (commit false false
        {| view := v; props := p'; contract := c'; subTransfer := sT;
           subApproval := sA; listeners := ls; pending := pd; next_req := nr;
           next_listener := nl; next_obj := no' |}).
Proof.
  intros [Ht Ha Hl Hp] p' no'. unfold site_ok in Ht, Ha.
  cbn [contract subTransfer subApproval listeners closure_of props] in Ht, Ha, Hl.
  unfold pending_fresh in Hp. cbn [pending next_req] in Hp.
  destruct sT as [cT svT dT clT], sA as [cA svA dA clA].
  cbn [cell savedCallback deps cleanup] in Ht, Ha, Hl.
  destruct Ht as (-> & -> & -> & Ht). destruct Ha as (-> & -> & -> & Ha).
  subst ls. rewrite commit_sites. world_fields.
  destruct (decide (c' = c)) as [->|Hne].
  - site_step (on_site_eq TransferSite (destroy_phase _ _)) by destroy_unchanged.
    site_step (on_site_eq ApprovalSite (destroy_phase _ _)) by destroy_unchanged.
    site_step (on_site_eq TransferSite (create_phase _ _ _)) by create_unchanged.
    site_step (on_site_eq ApprovalSite (create_phase _ _ _)) by create_unchanged.
    split; [| |reflexivity|exact Hp]; unfold site_ok; world_fields; done.
  - destruct c as [c|], clT as [lT|], clA as [lA|]; try done;
      site_step (on_site_eq TransferSite (destroy_phase _ _)) by destroy_changed;
      site_step (on_site_eq ApprovalSite (destroy_phase _ _)) by destroy_changed;
      rewrite ?off_head;
      (destruct c' as [c'|]; [|try done]);
      site_step (on_site_eq TransferSite (create_phase _ _ _)) by create_changed;
      site_step (on_site_eq ApprovalSite (create_phase _ _ _)) by create_changed;
      (split; [| |reflexivity|exact Hp]; unfold site_ok; world_fields; done).
Qed.

Lemma wf_mount (p : Props) : wf (mount p).
Proof.
  unfold mount. rewrite commit_spawns_last. cbv zeta.
  do 2 apply wf_spawn. rewrite commit_sites. unfold fresh_sub. world_fields.
  site_step (on_site_eq TransferSite (destroy_phase _ _)) by destroy_changed.
  site_step (on_site_eq ApprovalSite (destroy_phase _ _)) by destroy_changed.
  unfold attach. destruct (erc20 p);
    site_step (on_site_eq TransferSite (create_phase _ _ _)) by create_changed;
    site_step (on_site_eq ApprovalSite (create_phase _ _ _)) by create_changed;
    (split; [| |reflexivity|apply Forall_nil]; unfold site_ok; world_fields; done).
Qed.

Lemma wf_rerender (p : Props) (w : World) : wf w -> wf (rerender p w).
Proof.
  intros Hw. unfold rerender. rewrite commit_spawns_last. cbv zeta.
  destruct w. world_fields.
  destruct (token_deps_changed _ _), (balance_deps_changed _ _);
    repeat apply wf_spawn; by eapply wf_commit_sites.
Qed.

Lemma wf_step (w : World) (act : Action) : wf w -> wf (step w act).
Proof.
  intros Hw. destruct act; cbn [step].
  - by apply wf_rerender.
  - by apply wf_settle.
  - by apply wf_emit.
  - by apply wf_spawn.
Qed.

Theorem reachable_wf (w : World) : reachable w -> wf w.
Proof.
  induction 1 as [p|w act _ IH]; [apply wf_mount | by apply wf_step].
Qed.

(** ** Event delivery inside the hook *)

Lemma emit_bound (w : World) (c : Contract) (a b : string) :
  wf w -> contract w = Some c ->
  emit c "Transfer" a b w = spawn (onTransfer (closure_of w) a b) w
  ∧ emit c "Approval" a b w = spawn (onApproval (closure_of w) a b) w.
Proof.
  intros [Ht Ha Hl _] Hc. unfold emit, callback_of, listener. rewrite Hl.
  destruct Ht as (HcT & HsT & _ & Ht), Ha as (HcA & HsA & _ & Ha).
  rewrite Hc in Ht, Ha. rewrite HcT, HcA, HsT, HsA.
  destruct (cleanup (subTransfer w)) as [lT|]; [|done].
  destruct (cleanup (subApproval w)) as [lA|]; [|done].
  destruct Ht as (Hs1 & Hn1 & Hl1), Ha as (Hs2 & Hn2 & Hl2).
  unfold listeners_on, listens. simpl.
  rewrite Hs1, Hs2, Hn1, Hn2, !bool_decide_eq_true_2 by reflexivity.
  simpl. rewrite Hl1, Hl2. simpl. done.
Qed.

Lemma emit_unbound (w : World) (c : Contract) (channel a b : string) :
  wf w -> contract w ≠ Some c -> emit c channel a b w = w.
Proof.
  intros [Ht Ha Hl _] Hc. unfold emit. rewrite Hl.
  destruct Ht as (_ & _ & _ & Ht), Ha as (_ & _ & _ & Ha).
  destruct (contract w) as [c0|].
  - destruct (cleanup (subTransfer w)) as [lT|]; [|done].
    destruct (cleanup (subApproval w)) as [lA|]; [|done].
    destruct Ht as (Hs1 & _), Ha as (Hs2 & _).
    unfold listeners_on, listens. simpl. rewrite Hs1, Hs2.
    rewrite bool_decide_eq_false_2 by congruence. simpl. done.
  - destruct (cleanup (subTransfer w)); [done|].
    destruct (cleanup (subApproval w)); [done|]. done.
Qed.

(** C7.  A Transfer event, on whatever contract, whose from and to are both
    other than the connected account leaves the whole world as it was: no
    read goes in flight, and balance, totalSupply and allowance keep their
    values. *)
Theorem C7_foreign_transfer_ignored (w : World) (c : Contract) (from to : string) :
  reachable w ->
  account (props w) ≠ Some from ->
  account (props w) ≠ Some to ->
  step w (Emit c "Transfer" from to) = w.
Proof.
  intros Hr Hfrom Hto. apply reachable_wf in Hr. cbn [step].
  destruct (decide (contract w = Some c)) as [Hc|Hc].
  - rewrite (proj1 (emit_bound w c from to Hr Hc)).
    unfold onTransfer, strict_eq, closure_of. cbn [cl_contract cl_account].
    rewrite Hc. by rewrite !bool_decide_eq_false_2.
  - by apply emit_unbound.
Qed.

Lemma C7_foreign_transfer_ignored_witness :
  step overlapping
    (Emit {| c_id := 1; c_address := "0xT2" |} "Transfer" "0xALICE" "0xBOB")
  = overlapping.
Proof.
  apply C7_foreign_transfer_ignored.
  - apply (reach_step (mount propsA) (Render propsB)), reach_mount.
  - discriminate.
  - discriminate.
Defined.

Lemma settle_spawned (w : World) (c : Call) (k : Cont) (raw : Z) :
  pending_fresh w ->
  view (settle (next_req w) (inl raw) (spawn (Await c k) w)) = resume k raw (view w).
Proof.
  intros Hp.
  rewrite (view_settle _ raw _ {| r_id := next_req w; r_call := c; r_cont := k |}).
  - reflexivity.
  - cbn [spawn pending]. by apply find_request_app_fresh.
Qed.

(** C6.  An Approval event of the bound contract whose owner is the
    connected account puts one read allowance(owner, spender) in flight and
    changes nothing else; when that read resolves, the allowance mapping is
    the previous one with [spender] set to the value read, divided by
    10^decimals: every other spender keeps its entry, and balance and
    totalSupply keep their values. *)
Theorem C6_approval_updates_spender (w : World) (c : Contract)
    (owner spender : string) (raw : Z) :
  reachable w ->
  contract w = Some c ->
  account (props w) = Some owner ->
  let w1 := step w (Emit c "Approval" owner spender) in
  let w2 := step w1 (Settle (next_req w) (inl raw)) in
  let fresh := bigNum2Big raw (decimals (props w)) in
  pending w1
  = pending w
    ++ [{| r_id := next_req w;
           r_call := ContractRead c "allowance"
                       [ArgAddress owner; ArgAddress spender];
           r_cont := MergeAllowance spender (decimals (props w)) |}]
  ∧ view w1 = view w
  ∧ allowance (view w2) = <[spender := fresh]> (allowance (view w))
  ∧ allowance (view w2) !! spender = Some fresh
  ∧ (forall s, s ≠ spender -> allowance (view w2) !! s = allowance (view w) !! s)
  ∧ balance (view w2) = balance (view w)
  ∧ totalSupply (view w2) = totalSupply (view w).
Proof.
  intros Hr Hc Hacc w1 w2 fresh. apply reachable_wf in Hr.
  assert (w1 = spawn (Await (ContractRead c "allowance"
                               [ArgAddress owner; ArgAddress spender])
                        (MergeAllowance spender (decimals (props w)))) w) as Hw1.
  { subst w1. cbn [step]. rewrite (proj2 (emit_bound w c owner spender Hr Hc)).
    unfold onApproval, strict_eq, closure_of.
    cbn [cl_contract cl_account cl_decimals]. rewrite Hc, Hacc.
    by rewrite bool_decide_eq_true_2. }
  assert (view w2 = resume (MergeAllowance spender (decimals (props w))) raw (view w))
    as Hw2.
  { subst w2. cbn [step]. rewrite Hw1. apply settle_spawned, Hr. }
  split; [by rewrite Hw1|]. split; [by rewrite Hw1|].
  rewrite Hw2. cbn [resume setAllowance allowance balance totalSupply].
  repeat split.
  - apply lookup_insert_eq.
  - intros s Hs. by apply lookup_insert_ne.
Qed.

Lemma C6_approval_updates_spender_witness :
  let w := run (mount propsA)
             [QueryAllowanceBySpender "0xAAA"; Settle 2 (inl 700%Z)] in
  let w2 := run w [Emit {| c_id := 0; c_address := "0xT1" |} "Approval"
                     "0xME" "0xBBB";
                   Settle 3 (inl 4200%Z)] in
  allowance (view w2) !! "0xBBB" = Some (bigNum2Big 4200 2)
  ∧ allowance (view w2) !! "0xAAA" = allowance (view w) !! "0xAAA".
Proof.
  intros w w2.
  destruct (C6_approval_updates_spender w {| c_id := 0; c_address := "0xT1" |}
              "0xME" "0xBBB" 4200%Z) as (_ & _ & _ & Hs & Ho & _).
  - subst w. repeat apply reach_step. apply reach_mount.
  - reflexivity.
  - reflexivity.
  - split; [exact Hs | apply (Ho "0xAAA"); discriminate].
Defined.

(** ** The on-demand query *)

Lemma query_bound (w : World) (c : Contract) (acc spender : string) :
  contract w = Some c -> account (props w) = Some acc ->
  truthy acc = true -> truthy spender = true ->
  step w (QueryAllowanceBySpender spender)
  = spawn (Await (ContractRead c "allowance" [ArgAddress acc; ArgAddress spender])
             (MergeAllowance spender (decimals (props w)))) w.
Proof.
  intros Hc Ha Ht Hs. cbn [step]. unfold queryAllowanceBySpender, closure_of.
  cbn [cl_contract cl_account cl_decimals]. by rewrite Hc, Ha, Ht, Hs.
Qed.

Lemma closure_of_settle (id : nat) (answer : Z + Error) (w : World) :
  closure_of (settle id answer w) = closure_of w
  ∧ contract (settle id answer w) = contract w
  ∧ props (settle id answer w) = props w
  ∧ next_req (settle id answer w) = next_req w.
Proof.
  unfold settle. destruct (find_request id (pending w)); [|done].
  by destruct answer.
Qed.

(** Two allowance reads in flight, issued one after the other. *)
Lemma find_two_requests (rs : list Request) (n : nat) (r1 r2 : Request) :
  Forall (fun r => r_id r < n) rs -> r_id r1 = n -> r_id r2 = S n ->
  find_request n ((rs ++ [r1]) ++ [r2]) = Some r1
  ∧ find_request (S n) ((rs ++ [r1]) ++ [r2]) = Some r2.
Proof.
  intros Hrs H1 H2. split.
  - rewrite find_request_app_old by lia. by apply find_request_app_fresh.
  - apply find_request_app_fresh; [|done].
    apply Forall_app. split.
    + eapply Forall_impl; [exact Hrs|]. cbn beta. intros; lia.
    + apply Forall_singleton. lia.
Qed.

(** C8.  With a binding and an account, queries for two distinct spenders
    leave both entries in the allowance mapping, each with the value read
    for it, and no other entry changes.  This holds when the second query
    is made after the first has resolved, and when both reads are in
    flight together, in either order of completion. *)
Theorem C8_queries_merge (w : World) (c : Contract) (acc s1 s2 : string)
    (v1 v2 : Z) :
  reachable w ->
  contract w = Some c ->
  account (props w) = Some acc ->
  truthy acc = true -> truthy s1 = true -> truthy s2 = true ->
  s1 ≠ s2 ->
  let id1 := next_req w in
  let id2 := S (next_req w) in
  let d := decimals (props w) in
  forall acts,
    acts ∈ [ [QueryAllowanceBySpender s1; Settle id1 (inl v1);
              QueryAllowanceBySpender s2; Settle id2 (inl v2)];
             [QueryAllowanceBySpender s1; QueryAllowanceBySpender s2;
              Settle id1 (inl v1); Settle id2 (inl v2)];
             [QueryAllowanceBySpender s1; QueryAllowanceBySpender s2;
              Settle id2 (inl v2); Settle id1 (inl v1)] ] ->
    allowance (view (run w acts)) !! s1 = Some (bigNum2Big v1 d)
    ∧ allowance (view (run w acts)) !! s2 = Some (bigNum2Big v2 d)
    ∧ (forall s, s ≠ s1 -> s ≠ s2 ->
         allowance (view (run w acts)) !! s = allowance (view w) !! s).
Proof.
  intros Hr Hc Hacc Ht H1 H2 Hne id1 id2 d acts Hacts.
  apply reachable_wf in Hr. pose proof (wf_pending w Hr) as Hp. clear Hr.
  destruct w as [v p co sT sA ls pd nr nl no].
  unfold pending_fresh in Hp. cbn [pending next_req contract props view] in *.
  subst co id1 id2 d.
  set (r1 := {| r_id := nr;
                r_call := ContractRead c "allowance" [ArgAddress acc; ArgAddress s1];
                r_cont := MergeAllowance s1 (decimals p) |}).
  set (r2 := {| r_id := S nr;
                r_call := ContractRead c "allowance" [ArgAddress acc; ArgAddress s2];
                r_cont := MergeAllowance s2 (decimals p) |}).
  assert (Forall (fun r => r_id r < S nr) (pd ++ [r1])) as Hp1.
  { apply Forall_app. split; [|apply Forall_singleton; cbn; lia].
    eapply Forall_impl; [exact Hp|]. cbn beta. intros; lia. }
  assert (allowance (view (run {| view := v; props := p; contract := Some c;
                                  subTransfer := sT; subApproval := sA;
                                  listeners := ls; pending := pd; next_req := nr;
                                  next_listener := nl; next_obj := no |} acts))
          = <[s2 := bigNum2Big v2 (decimals p)]>
              (<[s1 := bigNum2Big v1 (decimals p)]> (allowance v))) as Hview.
  { unfold run.
    repeat (apply elem_of_cons in Hacts as [->|Hacts]);
      [| | |by apply elem_of_nil in Hacts];
      cbn [foldl step]; unfold queryAllowanceBySpender, closure_of;
      cbn [cl_contract cl_account cl_decimals contract props];
      rewrite Hacc, Ht, H1;
      cbn [andb spawn pending next_req contract props]; fold r1.
    - (* query, resolve, query, resolve *)
      rewrite (settle_resolved nr v1 _ r1)
        by (cbn [pending]; by apply find_request_app_fresh).
      cbn [set_view set_pending view props contract pending next_req
           subTransfer subApproval listeners next_listener next_obj].
      rewrite Hacc, Ht, H2; cbn [andb spawn pending next_req contract props
           view subTransfer subApproval listeners next_listener next_obj];
        fold r2.
      rewrite (settle_resolved (S nr) v2 _ r2).
      + reflexivity.
      + cbn [pending]. apply find_request_app_fresh; [|done].
        rewrite Forall_forall in *. intros r Hr. apply Hp1.
        apply list_elem_of_In. apply list_elem_of_In in Hr.
        unfold drop_request in Hr. by apply filter_In in Hr as [? _].
    - (* both in flight, the first resolves first *)
      rewrite Hacc, Ht, H2; cbn [andb spawn pending next_req contract props
           view subTransfer subApproval listeners next_listener next_obj];
        fold r2.
      destruct (find_two_requests pd nr r1 r2 Hp eq_refl eq_refl) as [F1 F2].
      rewrite (settle_resolved nr v1 _ r1) by exact F1.
      rewrite (settle_resolved (S nr) v2 _ r2).
      + reflexivity.
      + cbn [set_view set_pending pending].
        rewrite find_request_drop_ne by lia. exact F2.
    - (* both in flight, the second resolves first *)
      rewrite Hacc, Ht, H2; cbn [andb spawn pending next_req contract props
           view subTransfer subApproval listeners next_listener next_obj];
        fold r2.
      destruct (find_two_requests pd nr r1 r2 Hp eq_refl eq_refl) as [F1 F2].
      rewrite (settle_resolved (S nr) v2 _ r2) by exact F2.
      rewrite (settle_resolved nr v1 _ r1).
      + cbn [set_view set_pending view resume r_cont setAllowance allowance].
        apply insert_insert_ne. congruence.
      + cbn [set_view set_pending pending].
        rewrite find_request_drop_ne by lia. exact F1. }
  rewrite Hview. repeat split.
  - rewrite lookup_insert_ne by congruence. apply lookup_insert_eq.
  - apply lookup_insert_eq.
  - intros s Hs1 Hs2. by rewrite !lookup_insert_ne by congruence.
Qed.

Lemma C8_queries_merge_witness :
  let w := run (mount propsA)
             [QueryAllowanceBySpender "0xAAA"; QueryAllowanceBySpender "0xBBB";
              Settle 3 (inl 20%Z); Settle 2 (inl 10%Z)] in
  allowance (view w) !! "0xAAA" = Some (bigNum2Big 10 2)
  ∧ allowance (view w) !! "0xBBB" = Some (bigNum2Big 20 2).
Proof.
  intros w.
  destruct (C8_queries_merge (mount propsA) {| c_id := 0; c_address := "0xT1" |}
              "0xME" "0xAAA" "0xBBB" 10%Z 20%Z) with
    (acts := [QueryAllowanceBySpender "0xAAA"; QueryAllowanceBySpender "0xBBB";
              Settle 3 (inl 20%Z); Settle 2 (inl 10%Z)])
    as (Ha & Hb & _).
  - apply reach_mount.
  - reflexivity.
  - reflexivity.
  - reflexivity.
  - reflexivity.
  - reflexivity.
  - discriminate.
  - do 2 apply list_elem_of_further. apply list_elem_of_here.
  - exact (conj Ha Hb).
Defined.

(** ** The subscriber on its own *)

Section SubscriberFacts.
Context {Cb : Type}.
Implicit Types (st : St Cb) (c : option Contract) (name : string) (cb : Cb).

Lemma render_unchanged st c name cb :
  deps (sub st) = Some (c, name) -> useContractEvent c name cb st = save_callback cb st.
Proof.
  intros H. unfold useContractEvent. rewrite destroy_unchanged by exact H.
  by apply create_unchanged.
Qed.

Lemma save_callback_twice st cb cb' :
  save_callback cb' (save_callback cb st) = save_callback cb' st.
Proof. reflexivity. Qed.

(** Renders that keep (source, channelName) only swap the cell's content. *)
Lemma renders_unchanged (hs : list Cb) : forall st c name h,
  deps (sub st) = Some (c, name) ->
  renders (map (fun h => (c, name, h)) hs) (save_callback h st)
  = save_callback (default h (last hs)) st.
Proof.
  induction hs as [|h' hs IH]; intros st c name h Hd; [reflexivity|].
  unfold renders in *. cbn [map foldl fst snd].
  rewrite render_unchanged by exact Hd.
  rewrite save_callback_twice, IH by exact Hd.
  rewrite last_cons. by destruct (last hs).
Qed.

(** Listeners that close over other cells call nothing of this one. *)
Lemma foreign_listeners_silent (s : Sub Cb) (em : Emitter) :
  Forall (fun l => l_cell l ≠ cell s) em -> omap (listener s) em = [].
Proof.
  induction 1 as [|l em Hl _ IH]; [reflexivity|].
  cbn [omap list_omap]. unfold listener at 1.
  rewrite bool_decide_eq_false_2 by exact Hl. exact IH.
Qed.

Lemma Forall_listeners_on (P : Listener -> Prop) (co : Contract) name em :
  Forall P em -> Forall P (listeners_on co name em).
Proof.
  unfold listeners_on. rewrite !Forall_forall. intros H l Hl.
  apply H. apply list_elem_of_In. apply list_elem_of_In in Hl.
  by apply filter_In in Hl as [? _].
Qed.
End SubscriberFacts.

(** C3.  After any number of renders that replace the handler and keep
    (source, channelName), an event on that channel calls exactly one
    callback, the handler of the latest render; no earlier handler is
    called.  Listeners of other subscribers on the same channel are
    present in the emitter and call nothing of this subscriber. *)
Theorem C3_latest_handler_only {Cb : Type} (cellid next : nat) (em0 : Emitter)
    (c : Contract) (name : string) (h0 : Cb) (hs : list Cb) :
  truthy name = true ->
  Forall (fun l => l_cell l ≠ cellid) em0 ->
  deliver c name
    (renders (map (fun h => (Some c, name, h)) hs)
       (first_render cellid em0 next (Some c) name h0))
  = [default h0 (last hs)].
Proof.
  intros Hname Hem0.
  assert (first_render cellid em0 next (Some c) name h0
          = {| sub := {| cell := cellid; savedCallback := Some h0;
                         deps := Some (Some c, name);
                         cleanup := Some {| l_source := c; l_channel := name;
                                            l_fn := next; l_cell := cellid |} |};
               emitter := em0 ++ [{| l_source := c; l_channel := name;
                                     l_fn := next; l_cell := cellid |}];
               next_fn := S next |}) as ->.
  { unfold first_render, useContractEvent, fresh_sub.
    rewrite destroy_changed by (cbn [sub deps]; congruence).
    unfold run_cleanup. cbn [sub cleanup].
    rewrite create_changed by (cbn [sub deps]; congruence).
    unfold subscribe, save_callback, on. cbn [sub emitter next_fn cell savedCallback].
    by rewrite Hname. }
  match goal with
  | |- deliver _ _ (renders _ ?st) = _ =>
      change st with (save_callback h0 st)
  end.
  rewrite renders_unchanged by reflexivity.
  assert (forall h : Cb,
    deliver c name
      {| sub := {| cell := cellid; savedCallback := Some h;
                   deps := Some (Some c, name);
                   cleanup := Some {| l_source := c; l_channel := name;
                                      l_fn := next; l_cell := cellid |} |};
         emitter := em0 ++ [{| l_source := c; l_channel := name;
                               l_fn := next; l_cell := cellid |}];
         next_fn := S next |} = [h]) as Hdeliver.
  { intros h. unfold deliver, listeners_on. cbn [sub emitter].
    rewrite List.filter_app, omap_app.
    rewrite foreign_listeners_silent
      by (by apply (Forall_listeners_on _ c name em0)).
    cbn [List.filter]. unfold listens. cbn [l_source l_channel].
    rewrite !bool_decide_eq_true_2 by reflexivity.
    cbn [andb omap list_omap]. unfold listener. cbn [l_cell cell savedCallback].
    by rewrite bool_decide_eq_true_2. }
  apply Hdeliver.
Qed.

Lemma C3_latest_handler_only_witness :
  let c := {| c_id := 0; c_address := "0xT1" |} in
  let other := {| l_source := c; l_channel := "Transfer"; l_fn := 0; l_cell := 5 |} in
  deliver c "Transfer"
    (renders [(Some c, "Transfer", 11); (Some c, "Transfer", 12)]
       (first_render 0 [other] 1 (Some c) "Transfer" 10))
  = [12].
Proof.
  intros c other.
  apply (C3_latest_handler_only 0 1 [other] c "Transfer" 10 [11; 12]).
  - reflexivity.
  - apply Forall_singleton. discriminate.
Defined.

Lemma off_newer (l : Listener) (em : Emitter) :
  Forall (fun x => l_fn x < l_fn l) em -> off l (em ++ [l]) = em.
Proof.
  induction 1 as [|x em Hx _ IH].
  - apply off_head.
  - cbn [app off].
    rewrite (bool_decide_eq_false_2 (l_fn x = l_fn l)) by lia.
    rewrite andb_false_r. by rewrite IH.
Qed.

Lemma no_listener_of_cell (cellid : nat) (co : Contract) (name : string)
    (em : Emitter) :
  Forall (fun x => l_cell x ≠ cellid) em ->
  List.filter (fun l => bool_decide (l_cell l = cellid))
    (List.filter (listens co name) em) = [].
Proof.
  induction 1 as [|x em Hx _ IH]; [reflexivity|].
  cbn [List.filter]. destruct (listens co name x); [|exact IH].
  cbn [List.filter]. by rewrite bool_decide_eq_false_2.
Qed.

Section SubscriberInvariant.
Context {Cb : Type}.
Variables (cellid next : nat) (em0 : Emitter).
Hypothesis Hforeign : Forall (foreign cellid next) em0.
Implicit Types (st : St Cb) (c : option Contract) (name : string) (cb : Cb).

Lemma off_foreign (l : Listener) :
  next ≤ l_fn l -> off l (em0 ++ [l]) = em0.
Proof.
  intros Hl. apply off_newer.
  eapply Forall_impl; [exact Hforeign|]. intros x [_ Hx]. lia.
Qed.

Lemma foreign_cells : Forall (fun x => l_cell x ≠ cellid) em0.
Proof. eapply Forall_impl; [exact Hforeign|]. by intros x [Hx _]. Qed.

Lemma sub_inv_fresh (n : nat) :
  next ≤ n ->
  sub_inv (Cb := Cb) cellid next em0
    {| sub := fresh_sub cellid; emitter := em0; next_fn := n |}.
Proof.
  intros Hn. unfold sub_inv, fresh_sub. cbn [sub cell cleanup emitter next_fn].
  repeat split; [exact Hn | by rewrite app_nil_r | discriminate | discriminate].
Qed.

Lemma sub_inv_save st cb :
  sub_inv cellid next em0 st -> sub_inv cellid next em0 (save_callback cb st).
Proof. intros H. exact H. Qed.

Lemma sub_inv_cleanup st :
  sub_inv cellid next em0 st ->
  sub_inv cellid next em0 (run_cleanup st)
  ∧ cleanup (sub (run_cleanup st)) = None
  ∧ emitter (run_cleanup st) = em0.
Proof.
  intros (Hc & Hn & He & Hl). unfold run_cleanup, sub_inv.
  destruct (cleanup (sub st)) as [l|] eqn:E.
  - cbn [sub cell cleanup emitter next_fn option_list option_rect].
    destruct (Hl l eq_refl) as [_ Hfn].
    rewrite He. cbn [option_list option_rect].
    rewrite off_foreign by exact Hfn.
    repeat split; try done. by rewrite app_nil_r.
  - rewrite E. cbn [option_list option_rect] in *.
    rewrite app_nil_r in He. repeat split; try done.
    by rewrite He, app_nil_r.
Qed.

Lemma sub_inv_subscribe st c name :
  sub_inv cellid next em0 st -> cleanup (sub st) = None ->
  sub_inv cellid next em0 (subscribe c name st).
Proof.
  intros (Hc & Hn & He & Hl) Hnone. unfold subscribe, sub_inv.
  rewrite Hnone in He. cbn [option_list option_rect] in He.
  rewrite app_nil_r in He.
  destruct c as [co|]; [destruct (truthy name)|];
    cbn [sub cell cleanup emitter next_fn option_list option_rect];
    rewrite He; unfold on.
  - split_and!; [exact Hc | lia | reflexivity |].
    intros l0 [= <-]. cbn [l_cell l_fn]. split; [exact Hc | exact Hn].
  - split_and!; [exact Hc | exact Hn | by rewrite app_nil_r | discriminate].
  - split_and!; [exact Hc | exact Hn | by rewrite app_nil_r | discriminate].
Qed.

(** Every instant of a render keeps the invariant: the old listener is
    gone before the new one is registered. *)
Lemma sub_inv_render st c name cb :
  sub_inv cellid next em0 st ->
  Forall (sub_inv cellid next em0) (render_instants c name cb st)
  ∧ sub_inv cellid next em0 (useContractEvent c name cb st).
Proof.
  intros Hst. unfold render_instants, useContractEvent, create_phase, destroy_phase.
  destruct (deps_changed (sub st) c name) eqn:E.
  - destruct (sub_inv_cleanup st Hst) as (H1 & Hnone & _).
    assert (deps_changed (sub (run_cleanup st)) c name = true) as ->.
    { unfold deps_changed in *. by rewrite deps_run_cleanup. }
    assert (sub_inv cellid next em0
              (subscribe c name (save_callback cb (run_cleanup st)))) as H3
      by (by apply sub_inv_subscribe; [apply sub_inv_save|]).
    split; [|exact H3].
    apply Forall_cons; split; [exact H1|].
    apply Forall_cons; split; [exact H1|].
    apply Forall_cons; split; [exact H3|by apply Forall_nil].
  - rewrite E. split; [|exact Hst].
    apply Forall_cons; split; [exact Hst|].
    apply Forall_cons; split; [exact Hst|].
    apply Forall_cons; split; [exact Hst|by apply Forall_nil].
Qed.

Lemma sub_inv_instants (rs : list (option Contract * string * Cb)) :
  forall st, sub_inv cellid next em0 st ->
  Forall (sub_inv cellid next em0) (instants rs st)
  ∧ sub_inv cellid next em0 (renders rs st).
Proof.
  induction rs as [|r rs IH]; intros st Hst.
  - split; [constructor | exact Hst].
  - destruct (sub_inv_render st r.1.1 r.1.2 r.2 Hst) as [Hi Hr].
    destruct (IH _ Hr) as [Hi' Hr'].
    cbn [instants]. unfold renders in *. cbn [foldl].
    split; [by apply Forall_app | exact Hr'].
Qed.

(** Under the invariant the subscriber has at most one listener, on at
    most one pair. *)
Lemma sub_inv_live st (co : Contract) name :
  sub_inv cellid next em0 st -> live co name st ≤ 1.
Proof.
  intros (Hc & _ & He & _). unfold live, listeners_on.
  rewrite He, Hc, !List.filter_app, length_app.
  assert (List.filter (fun l => bool_decide (l_cell l = cellid))
            (List.filter (listens co name) em0) = []) as ->.
  { apply no_listener_of_cell, foreign_cells. }
  cbn [length plus].
  etransitivity; [apply List.filter_length_le|].
  etransitivity; [apply List.filter_length_le|].
  destruct (cleanup (sub st)); cbn [option_list option_rect length]; lia.
Qed.
End SubscriberInvariant.

(** C4.  Starting from a fresh call site among listeners of other
    subscribers, and for every sequence of renders, whatever contract,
    channel and handler each one passes: at every instant of every render
    (after the cleanup, after the callback is saved, after the new
    subscription) the subscriber has at most one listener registered on
    any (source, channelName) pair, and once it is unmounted it has none
    and the emitter holds the other subscribers' listeners only. *)
Theorem C4_at_most_one_listener {Cb : Type} (cellid next : nat) (em0 : Emitter)
    (rs : list (option Contract * string * Cb)) :
  Forall (foreign cellid next) em0 ->
  let st0 : St Cb :=
    {| sub := fresh_sub cellid; emitter := em0; next_fn := next |} in
  (forall st c name, st ∈ instants rs st0 -> live c name st ≤ 1)
  ∧ (forall c name, live c name (unmount (renders rs st0)) = 0)
  ∧ emitter (unmount (renders rs st0)) = em0.
Proof.
  intros Hem0 st0.
  destruct (sub_inv_instants cellid next em0 Hem0 rs st0) as [Hi Hr].
  { apply sub_inv_fresh. lia. }
  split; [|split].
  - intros st c name Hst. rewrite Forall_forall in Hi.
    by apply (sub_inv_live cellid next em0 Hem0), Hi.
  - intros c name.
    destruct (sub_inv_cleanup cellid next em0 Hem0 _ Hr) as (Hinv & Hnone & Hem).
    unfold unmount.
    pose proof (sub_inv_live cellid next em0 Hem0 _ c name Hinv) as Hle.
    unfold live in *. rewrite Hem in *.
    destruct Hinv as (Hc & _). rewrite Hc.
    unfold listeners_on.
    by rewrite no_listener_of_cell by (by apply (foreign_cells cellid next)).
  - by destruct (sub_inv_cleanup cellid next em0 Hem0 _ Hr) as (_ & _ & Hem).
Qed.

Lemma C4_at_most_one_listener_witness :
  let c1 := {| c_id := 0; c_address := "0xT1" |} in
  let c2 := {| c_id := 1; c_address := "0xT2" |} in
  let other := {| l_source := c2; l_channel := "Transfer"; l_fn := 0; l_cell := 5 |} in
  let rs := [(Some c1, "Transfer", 10); (Some c2, "Transfer", 11);
             (Some c2, "Transfer", 12); (None, "Transfer", 13);
             (Some c2, "Transfer", 14)] in
  let st0 : St nat := {| sub := fresh_sub 0; emitter := [other]; next_fn := 1 |} in
  Forall (fun st => live c2 "Transfer" st ≤ 1) (instants rs st0)
  ∧ live c2 "Transfer" (renders rs st0) = 1
  ∧ live c2 "Transfer" (unmount (renders rs st0)) = 0.
Proof.
  intros c1 c2 other rs st0.
  destruct (C4_at_most_one_listener 0 1 [other] rs) as (Hi & Hu & _).
  - apply Forall_singleton. split; [discriminate | cbn; lia].
  - split; [|split].
    + apply Forall_forall. intros st Hst. by apply Hi.
    + reflexivity.
    + apply Hu.
Defined.

(** ** The hook's listeners *)

(** In every reachable world the hook has at most one listener on any
    (source, channelName) pair, and none on a contract other than the
    bound one. *)
Lemma hook_listeners_per_pair (w : World) (c : Contract) (name : string) :
  reachable w ->
  length (listeners_on c name (listeners w)) ≤ 1
  ∧ (contract w ≠ Some c -> listeners_on c name (listeners w) = []).
Proof.
  intros Hr. apply reachable_wf in Hr as [Ht Ha Hl _].
  destruct Ht as (_ & _ & _ & Ht), Ha as (_ & _ & _ & Ha). rewrite Hl.
  destruct (contract w) as [c0|].
  - destruct (cleanup (subTransfer w)) as [lT|]; [|done].
    destruct (cleanup (subApproval w)) as [lA|]; [|done].
    destruct Ht as (Hs1 & Hn1 & _), Ha as (Hs2 & Hn2 & _).
    unfold listeners_on, listens.
    cbn [option_list option_rect app List.filter]. rewrite Hs1, Hs2, Hn1, Hn2.
    split.
    + destruct (decide (name = "Transfer")) as [->|Hname].
      * rewrite (bool_decide_eq_false_2 ("Approval" = "Transfer")) by discriminate.
        rewrite andb_false_r. destruct (_ && _); cbn [length]; lia.
      * rewrite (bool_decide_eq_false_2 ("Transfer" = name)) by congruence.
        rewrite andb_false_r. destruct (_ && _); cbn [length]; lia.
    + intros Hc. by rewrite bool_decide_eq_false_2 by congruence.
  - destruct (cleanup (subTransfer w)); [done|].
    destruct (cleanup (subApproval w)); [done|]. split; [cbn; lia | done].
Qed.

(** The first render of [propsA] puts the two polling reads in flight and
    registers the two listeners on the attached contract. *)
Example mount_in_flight :
  pending (mount propsA)
  = [ {| r_id := 0; r_call := MulticallAll 3 "0xT1" "totalSupply" [];
         r_cont := SetTotalSupply 2 |};
      {| r_id := 1; r_call := MulticallAll 3 "0xT1" "balanceOf" [ArgAddress "0xME"];
         r_cont := SetBalance 2 |} ]
  ∧ listeners (mount propsA)
    = [ {| l_source := {| c_id := 0; c_address := "0xT1" |};
           l_channel := "Transfer"; l_fn := 0; l_cell := 0 |};
        {| l_source := {| c_id := 0; c_address := "0xT1" |};
           l_channel := "Approval"; l_fn := 1; l_cell := 1 |} ].
Proof. split; reflexivity. Qed.

(** A change of address attaches a new contract: the old listeners are
    removed and two new ones registered on the new binding. *)
Example rerender_resubscribes :
  listeners overlapping
  = [ {| l_source := {| c_id := 1; c_address := "0xT2" |};
         l_channel := "Transfer"; l_fn := 2; l_cell := 0 |};
      {| l_source := {| c_id := 1; c_address := "0xT2" |};
         l_channel := "Approval"; l_fn := 3; l_cell := 1 |} ].
Proof. reflexivity. Qed.

(** A Transfer to the connected account puts a balance read in flight. *)
Example transfer_to_account_reads_balance :
  pending (step (mount propsNone) (Emit {| c_id := 0; c_address := "0xT1" |}
                                     "Transfer" "0xALICE" "0xME")) = []
  ∧ r_call <$> find_request 2
      (pending (step (mount propsA) (Emit {| c_id := 0; c_address := "0xT1" |}
                                       "Transfer" "0xALICE" "0xME")))
    = Some (ContractRead {| c_id := 0; c_address := "0xT1" |} "balanceOf"
              [ArgAddress "0xME"]).
Proof. split; reflexivity. Qed.

(** * Further properties of the hook *)

(** ** What a render puts in flight *)

Lemma pending_spawn (a : Async) (w : World) :
  pending (spawn a w) = pending w ++ request_of (next_req w) a.
Proof. destruct a; cbn [spawn pending request_of]; by rewrite ?app_nil_r. Qed.

Lemma next_req_spawn (a : Async) (w : World) :
  next_req (spawn a w) = next_req w + length (request_of (next_req w) a).
Proof. destruct a; cbn [spawn next_req request_of length]; lia. Qed.

Lemma pending_commit_sites (w : World) :
  pending (commit false false w) = pending w
  ∧ next_req (commit false false w) = next_req w
  ∧ view (commit false false w) = view w
  ∧ props (commit false false w) = props w
  ∧ contract (commit false false w) = contract w.
Proof. rewrite commit_sites. by split_and!. Qed.

(** The reads a commit issues: the two polling effects, in source order. *)
Lemma pending_commit (t b : bool) (w : World) :
  pending (commit t b w)
  = pending w
    ++ (if t then request_of (next_req w) (fetchToken (props w)) else [])
    ++ (if b
        then request_of
               (next_req w
                + (if t then length (request_of (next_req w) (fetchToken (props w)))
                   else 0))
               (fetchBalance (props w))
        else []).
Proof.
  rewrite commit_spawns_last. cbv zeta.
  destruct (pending_commit_sites w) as (Hp & Hn & _ & _ & _).
  destruct t, b; rewrite ?pending_spawn, ?next_req_spawn, ?Hp, ?Hn, ?app_nil_r,
    <- ?app_assoc, ?Nat.add_0_r; reflexivity.
Qed.

(** Without the erc20 factory, the multicall provider or an address, the
    first render issues no read at all. *)
Theorem mount_without_prerequisites (p : Props) :
  erc20 p = None ∨ multicallProvider p = None ∨ truthy (address p) = false ->
  pending (mount p) = [].
Proof.
  intros H. unfold mount. rewrite pending_commit.
  cbn [pending props next_req]. unfold fetchToken, fetchBalance.
  destruct H as [->| [H|H]].
  - reflexivity.
  - rewrite H. by destruct (erc20 p).
  - rewrite H. destruct (erc20 p), (multicallProvider p), (account p); reflexivity.
Qed.

Lemma mount_without_prerequisites_witness : pending (mount propsNone) = [].
Proof. apply mount_without_prerequisites. by left. Defined.

(** With no account connected (null, undefined or the empty string) the
    balance poll is skipped: no read in flight after the first render
    writes the balance. *)
Theorem mount_without_account (p : Props) :
  (forall a, account p = Some a -> truthy a = false) ->
  Forall (fun r => writes (r_cont r) ≠ Some BalanceFeed) (pending (mount p)).
Proof.
  intros H. unfold mount. rewrite pending_commit.
  cbn [pending props next_req app].
  assert (fetchBalance p = Done) as ->.
  { unfold fetchBalance.
    destruct (erc20 p), (multicallProvider p), (account p) as [a|]; try reflexivity.
    rewrite (H a eq_refl). by rewrite andb_false_r. }
  cbn [request_of]. rewrite app_nil_r.
  unfold fetchToken.
  destruct (erc20 p), (multicallProvider p), (truthy (address p));
    cbn [request_of]; repeat constructor; discriminate.
Qed.

Lemma mount_without_account_witness :
  Forall (fun r => writes (r_cont r) ≠ Some BalanceFeed)
    (pending (mount propsNoAccount))
  ∧ length (pending (mount propsNoAccount)) = 1.
Proof.
  split; [|reflexivity].
  apply mount_without_account. discriminate.
Defined.

(** ** Renders and the reads in flight *)

Lemma find_request_app_l (id : nat) (rs extra : list Request) (r : Request) :
  find_request id rs = Some r -> find_request id (rs ++ extra) = Some r.
Proof.
  unfold find_request. induction rs as [|x rs IH]; [discriminate|].
  cbn [app find]. destruct (bool_decide (r_id x = id)); [done | exact IH].
Qed.

Lemma pending_rerender (p : Props) (w : World) :
  exists extra, pending (rerender p w) = pending w ++ extra.
Proof. unfold rerender. rewrite pending_commit. cbn [pending]. eauto. Qed.

(** A render cancels nothing.  A read in flight is still in flight after
    any later render, and when it resolves it writes through the
    continuation it was issued with: the value is converted with the
    decimals of the render that issued the read. *)
Theorem render_keeps_reads_in_flight (w : World) (p : Props) (id : nat)
    (r : Request) (raw : Z) :
  find_request id (pending w) = Some r ->
  find_request id (pending (rerender p w)) = Some r
  ∧ view (settle id (inl raw) (rerender p w)) = resume (r_cont r) raw (view w).
Proof.
  intros Hr. destruct (pending_rerender p w) as [extra He].
  assert (find_request id (pending (rerender p w)) = Some r) as Hf
    by (rewrite He; by apply find_request_app_l).
  split; [exact Hf|].
  rewrite (view_settle id raw _ r Hf). by rewrite view_rerender.
Qed.

Lemma render_keeps_reads_in_flight_witness :
  totalSupply (view (settle 0 (inl 1234%Z) (rerender propsDecimals (mount propsA))))
  = bigNum2Big 1234 2
  ∧ decimals (props (rerender propsDecimals (mount propsA))) = 6.
Proof.
  split; [|reflexivity].
  destruct (render_keeps_reads_in_flight (mount propsA) propsDecimals 0
              {| r_id := 0; r_call := MulticallAll 3 "0xT1" "totalSupply" [];
                 r_cont := SetTotalSupply 2 |} 1234%Z eq_refl) as [_ Hv].
  by rewrite Hv.
Defined.

(** With the prerequisites there, the first render polls totalSupply
    through the multicall provider with request 0, and its resolution
    stores the raw value over 10^decimals; balance and allowance stay at
    their initial values. *)
Theorem first_totalSupply_poll (p : Props) (e : Erc20) (prov : Provider) (raw : Z) :
  erc20 p = Some e -> multicallProvider p = Some prov ->
  truthy (address p) = true ->
  r_call <$> find_request 0 (pending (mount p))
  = Some (MulticallAll prov (address p) "totalSupply" [])
  ∧ view (settle 0 (inl raw) (mount p))
    = setTotalSupply (bigNum2Big raw (decimals p)) initial_view.
Proof.
  intros He Hp Ha.
  assert (find_request 0 (pending (mount p))
          = Some {| r_id := 0;
                    r_call := MulticallAll prov (address p) "totalSupply" [];
                    r_cont := SetTotalSupply (decimals p) |}) as Hf.
  { unfold mount. rewrite pending_commit. cbn [pending props next_req app].
    unfold fetchToken. rewrite He, Hp, Ha. reflexivity. }
  split; [by rewrite Hf|].
  rewrite (view_settle 0 raw _ _ Hf). by rewrite view_mount.
Qed.

Lemma first_totalSupply_poll_witness :
  view (settle 0 (inl 100%Z) (mount propsNoAccount))
  = setTotalSupply (bigNum2Big 100 2) initial_view.
Proof.
  exact (proj2 (first_totalSupply_poll propsNoAccount 7 3 100%Z
                  eq_refl eq_refl eq_refl)).
Defined.

(** With an account connected as well, the balance poll is request 1:
    balanceOf(account) through the multicall provider, and its resolution
    stores the raw value over 10^decimals in [balance] only. *)
Theorem first_balance_poll (p : Props) (e : Erc20) (prov : Provider)
    (acc : string) (raw : Z) :
  erc20 p = Some e -> multicallProvider p = Some prov ->
  truthy (address p) = true ->
  account p = Some acc -> truthy acc = true ->
  r_call <$> find_request 1 (pending (mount p))
  = Some (MulticallAll prov (address p) "balanceOf" [ArgAddress acc])
  ∧ view (settle 1 (inl raw) (mount p))
    = setBalance (bigNum2Big raw (decimals p)) initial_view.
Proof.
  intros He Hp Ha Hacc Ht.
  assert (find_request 1 (pending (mount p))
          = Some {| r_id := 1;
                    r_call := MulticallAll prov (address p) "balanceOf"
                                [ArgAddress acc];
                    r_cont := SetBalance (decimals p) |}) as Hf.
  { unfold mount. rewrite pending_commit. cbn [pending props next_req app].
    unfold fetchToken, fetchBalance. rewrite He, Hp, Ha, Hacc, Ht. reflexivity. }
  split; [by rewrite Hf|].
  rewrite (view_settle 1 raw _ _ Hf). by rewrite view_mount.
Qed.

Lemma first_balance_poll_witness :
  view (settle 1 (inl 250%Z) (mount propsA))
  = setBalance (bigNum2Big 250 2) initial_view.
Proof.
  exact (proj2 (first_balance_poll propsA 7 3 "0xME" 250%Z
                  eq_refl eq_refl eq_refl eq_refl eq_refl)).
Defined.

(** ** Renders that change nothing, or the account only *)

Lemma deps_unchanged_refl (p : Props) :
  memo_deps_changed p p = false
  ∧ token_deps_changed p p = false
  ∧ balance_deps_changed p p = false.
Proof.
  unfold memo_deps_changed, token_deps_changed, balance_deps_changed.
  by rewrite !bool_decide_eq_true_2.
Qed.

(** A render that reads the same container values is the identity on every
    reachable world: no read is issued, no listener is registered or
    removed, and the saved callbacks close over the same values. *)
Theorem rerender_same_props (w : World) :
  reachable w -> rerender (props w) w = w.
Proof.
  intros Hr. apply reachable_wf in Hr as [Ht Ha _ _].
  unfold rerender. destruct (deps_unchanged_refl (props w)) as (-> & -> & ->).
  rewrite commit_sites. unfold site_ok in Ht, Ha.
  destruct w as [v p c sT sA ls pd nr nl no].
  cbn [contract subTransfer subApproval closure_of props] in Ht, Ha.
  destruct sT as [cT svT dT clT], sA as [cA svA dA clA].
  cbn [cell savedCallback deps cleanup] in Ht, Ha.
  destruct Ht as (-> & -> & -> & _). destruct Ha as (-> & -> & -> & _).
  world_fields.
  site_step (on_site_eq TransferSite (destroy_phase _ _)) by destroy_unchanged.
  site_step (on_site_eq ApprovalSite (destroy_phase _ _)) by destroy_unchanged.
  site_step (on_site_eq TransferSite (create_phase _ _ _)) by create_unchanged.
  site_step (on_site_eq ApprovalSite (create_phase _ _ _)) by create_unchanged.
  reflexivity.
Qed.

Lemma rerender_same_props_witness : rerender propsB overlapping = overlapping.
Proof.
  apply (rerender_same_props overlapping).
  apply (reach_step (mount propsA) (Render propsB)), reach_mount.
Defined.

(** When only the account (and possibly the signer) changes, the contract
    binding and its two listeners stay as they are, totalSupply is not
    polled again, the balance poll runs for the new account, and the view
    keeps the previous account's values until that read resolves. *)
Theorem rerender_account_only (w : World) (p : Props) :
  reachable w ->
  erc20 p = erc20 (props w) ->
  multicallProvider p = multicallProvider (props w) ->
  address p = address (props w) ->
  decimals p = decimals (props w) ->
  account p ≠ account (props w) ->
  contract (rerender p w) = contract w
  ∧ listeners (rerender p w) = listeners w
  ∧ pending (rerender p w) = pending w ++ request_of (next_req w) (fetchBalance p)
  ∧ view (rerender p w) = view w.
Proof.
  intros Hr He Hm Ha Hd Hacc. apply reachable_wf in Hr as [Ht Hap _ _].
  assert (memo_deps_changed (props w) p = false) as Hmemo.
  { unfold memo_deps_changed. by rewrite bool_decide_eq_true_2. }
  assert (token_deps_changed (props w) p = false) as Htok.
  { unfold token_deps_changed. by rewrite bool_decide_eq_true_2. }
  assert (balance_deps_changed (props w) p = true) as Hbal.
  { unfold balance_deps_changed. rewrite bool_decide_eq_false_2; [done|].
    intros (_ & _ & _ & ? & _). done. }
  split_and!.
  - unfold rerender. rewrite Hmemo, commit_spawns_last. cbv zeta.
    rewrite Htok, Hbal. destruct (fetchBalance _); by rewrite commit_sites.
  - unfold rerender. rewrite Hmemo, Htok, Hbal, commit_spawns_last. cbv zeta.
    assert (forall a w', listeners (spawn a w') = listeners w') as Hls
      by (by intros []).
    rewrite Hls, commit_sites.
    unfold site_ok in Ht, Hap.
    destruct w as [v p0 c sT sA ls pd nr nl no].
    cbn [contract subTransfer subApproval closure_of props] in Ht, Hap.
    destruct sT as [cT svT dT clT], sA as [cA svA dA clA].
    cbn [cell savedCallback deps cleanup] in Ht, Hap.
    destruct Ht as (-> & -> & -> & _). destruct Hap as (-> & -> & -> & _).
    world_fields.
    site_step (on_site_eq TransferSite (destroy_phase _ _)) by destroy_unchanged.
    site_step (on_site_eq ApprovalSite (destroy_phase _ _)) by destroy_unchanged.
    site_step (on_site_eq TransferSite (create_phase _ _ _)) by create_unchanged.
    site_step (on_site_eq ApprovalSite (create_phase _ _ _)) by create_unchanged.
    reflexivity.
  - unfold rerender. rewrite pending_commit, Htok, Hbal.
    cbn [pending props next_req app]. by rewrite Nat.add_0_r.
  - apply view_rerender.
Qed.

Lemma rerender_account_only_witness :
  listeners (rerender propsOther (mount propsA)) = listeners (mount propsA)
  ∧ pending (rerender propsOther (mount propsA))
    = pending (mount propsA)
      ++ [{| r_id := 2;
             r_call := MulticallAll 3 "0xT1" "balanceOf" [ArgAddress "0xYOU"];
             r_cont := SetBalance 2 |}].
Proof.
  destruct (rerender_account_only (mount propsA) propsOther)
    as (_ & Hl & Hp & _); try reflexivity.
  - apply reach_mount.
  - discriminate.
  - exact (conj Hl Hp).
Defined.

(** ** Events: what is acted on and what is ignored *)

(** A Transfer event of the bound contract in which the connected account
    is the sender or the receiver puts one read balanceOf(account) in
    flight, through the attached binding and not the multicall provider,
    and changes nothing else.  When that read resolves, [balance] is the
    value read over 10^decimals; allowance and totalSupply are untouched. *)
Theorem transfer_of_account_reads_balance (w : World) (c : Contract)
    (from to acc : string) (raw : Z) :
  reachable w ->
  contract w = Some c ->
  account (props w) = Some acc ->
  from = acc ∨ to = acc ->
  let w1 := step w (Emit c "Transfer" from to) in
  let w2 := step w1 (Settle (next_req w) (inl raw)) in
  pending w1
  = pending w
    ++ [{| r_id := next_req w;
           r_call := ContractRead c "balanceOf" [ArgAddress acc];
           r_cont := SetBalance (decimals (props w)) |}]
  ∧ view w1 = view w
  ∧ view w2 = setBalance (bigNum2Big raw (decimals (props w))) (view w).
Proof.
  intros Hr Hc Hacc Hft w1 w2. apply reachable_wf in Hr.
  assert (w1 = spawn (Await (ContractRead c "balanceOf" [ArgAddress acc])
                        (SetBalance (decimals (props w)))) w) as Hw1.
  { subst w1. cbn [step]. rewrite (proj1 (emit_bound w c from to Hr Hc)).
    unfold onTransfer, strict_eq, closure_of.
    cbn [cl_contract cl_account cl_decimals]. rewrite Hc, Hacc.
    destruct Hft as [->| ->].
    - by rewrite bool_decide_eq_true_2.
    - rewrite (bool_decide_eq_true_2 (Some acc = Some acc)) by reflexivity.
      by rewrite orb_true_r. }
  split_and!.
  - by rewrite Hw1.
  - by rewrite Hw1.
  - subst w2. cbn [step]. rewrite Hw1. apply settle_spawned, Hr.
Qed.

Lemma transfer_of_account_reads_balance_witness :
  let c := {| c_id := 0; c_address := "0xT1" |} in
  let w := rerender propsOther (mount propsA) in
  view (run w [Emit c "Transfer" "0xME" "0xYOU"; Settle 3 (inl 900%Z)])
  = setBalance (bigNum2Big 900 2) (view w).
Proof.
  intros c w.
  destruct (transfer_of_account_reads_balance w c "0xME" "0xYOU" "0xYOU" 900%Z)
    as (_ & _ & Hv).
  - apply (reach_step (mount propsA) (Render propsOther)), reach_mount.
  - reflexivity.
  - reflexivity.
  - by right.
  - exact Hv.
Defined.

(** An Approval event whose owner is not the connected account changes
    nothing, on whatever contract: no allowance read is issued, not even
    for a spender whose entry the mapping already holds. *)
Theorem approval_of_other_owner_ignored (w : World) (c : Contract)
    (owner spender : string) :
  reachable w ->
  account (props w) ≠ Some owner ->
  step w (Emit c "Approval" owner spender) = w.
Proof.
  intros Hr Howner. apply reachable_wf in Hr. cbn [step].
  destruct (decide (contract w = Some c)) as [Hc|Hc].
  - rewrite (proj2 (emit_bound w c owner spender Hr Hc)).
    unfold onApproval, strict_eq, closure_of. cbn [cl_contract cl_account].
    rewrite Hc. by rewrite bool_decide_eq_false_2.
  - by apply emit_unbound.
Qed.

Lemma approval_of_other_owner_ignored_witness :
  step (mount propsA)
    (Emit {| c_id := 0; c_address := "0xT1" |} "Approval" "0xALICE" "0xme")
  = mount propsA.
Proof.
  apply approval_of_other_owner_ignored; [apply reach_mount | discriminate].
Defined.

(** The hook listens to nothing else: an event of a contract other than
    the bound one (the previous address, say), or on a channel other than
    Transfer and Approval, reaches no handler and changes nothing. *)
Theorem unrelated_event_ignored (w : World) (c : Contract) (name a b : string) :
  reachable w ->
  contract w ≠ Some c ∨ (name ≠ "Transfer" ∧ name ≠ "Approval") ->
  step w (Emit c name a b) = w.
Proof.
  intros Hr [Hc|[HnT HnA]]; apply reachable_wf in Hr; cbn [step].
  - by apply emit_unbound.
  - destruct Hr as [Ht Ha Hl _]. unfold emit. rewrite Hl.
    destruct Ht as (_ & _ & _ & Ht), Ha as (_ & _ & _ & Ha).
    destruct (contract w) as [c0|].
    + destruct (cleanup (subTransfer w)) as [lT|]; [|done].
      destruct (cleanup (subApproval w)) as [lA|]; [|done].
      destruct Ht as (_ & Hn1 & _), Ha as (_ & Hn2 & _).
      unfold listeners_on, listens.
      cbn [option_list option_rect app List.filter]. rewrite Hn1, Hn2.
      rewrite (bool_decide_eq_false_2 ("Transfer" = name)) by congruence.
      rewrite (bool_decide_eq_false_2 ("Approval" = name)) by congruence.
      by rewrite !andb_false_r.
    + destruct (cleanup (subTransfer w)); [done|].
      by destruct (cleanup (subApproval w)).
Qed.

Lemma unrelated_event_ignored_witness :
  step overlapping
    (Emit {| c_id := 0; c_address := "0xT1" |} "Transfer" "0xME" "0xYOU")
  = overlapping.
Proof.
  apply unrelated_event_ignored.
  - apply (reach_step (mount propsA) (Render propsB)), reach_mount.
  - left. discriminate.
Defined.

(** ** The on-demand query: when it does nothing *)

(** queryAllowanceBySpender with the empty spender, or with no account
    connected, returns without a read and leaves the world as it is. *)
Theorem query_without_spender_or_account (w : World) (spender : string) :
  truthy spender = false
  ∨ (forall a, account (props w) = Some a -> truthy a = false) ->
  queryAllowanceBySpender (closure_of w) spender = Done
  ∧ step w (QueryAllowanceBySpender spender) = w.
Proof.
  intros H.
  assert (queryAllowanceBySpender (closure_of w) spender = Done) as Hq.
  { unfold queryAllowanceBySpender, closure_of. cbn [cl_contract cl_account].
    destruct (contract w); [|reflexivity].
    destruct (account (props w)) as [a|] eqn:Ea; [|reflexivity].
    destruct H as [->|H]; [reflexivity|].
    rewrite (H a eq_refl). by rewrite andb_false_r. }
  split; [exact Hq|]. cbn [step]. by rewrite Hq.
Qed.

Lemma query_without_spender_or_account_witness :
  step (mount propsNoAccount) (QueryAllowanceBySpender "0xAAA")
  = mount propsNoAccount.
Proof.
  apply (query_without_spender_or_account (mount propsNoAccount) "0xAAA").
  right. discriminate.
Defined.

(** ** The allowance mapping only grows *)

Lemma resume_keeps_entries (k : Cont) (raw : Z) (v : ViewState) (s : string) :
  is_Some (allowance v !! s) -> is_Some (allowance (resume k raw v) !! s).
Proof.
  intros Hs. destruct k as [d|d|sp d|]; cbn [resume setTotalSupply setBalance
    setAllowance allowance]; try exact Hs.
  destruct (decide (sp = s)) as [->|Hne].
  - rewrite lookup_insert_eq. eauto.
  - by rewrite lookup_insert_ne.
Qed.

(** No step of the hook removes an allowance entry: a spender that has an
    entry keeps one along every run, through renders that change the
    address or the account, failed reads and events included. *)
Theorem allowance_entries_persist (acts : list Action) (w : World) (s : string) :
  is_Some (allowance (view w) !! s) ->
  is_Some (allowance (view (run w acts)) !! s).
Proof.
  revert w. induction acts as [|act acts IH]; intros w Hs; [exact Hs|].
  unfold run in *. cbn [foldl]. apply IH.
  pose proof (view_step w act) as Hstep.
  destruct (resumed w act) as [k|].
  - destruct Hstep as [raw ->]. by apply resume_keeps_entries.
  - by rewrite Hstep.
Qed.

Lemma allowance_entries_persist_witness :
  let w := run (mount propsA)
             [QueryAllowanceBySpender "0xAAA"; Settle 2 (inl 700%Z)] in
  is_Some (allowance (view (run w [Render propsB; Render propsNoAccount;
                                   Settle 0 (inr (CallFailed "rpc"))]))
             !! "0xAAA").
Proof.
  intros w. apply allowance_entries_persist.
  exists (bigNum2Big 700 2). reflexivity.
Defined.

(** * Further properties of the subscriber *)

Section SubscriberDelivery.
Context {Cb : Type}.
Variables (cellid next : nat) (em0 : Emitter).
Hypothesis Hforeign : Forall (foreign cellid next) em0.
Implicit Types (st : St Cb) (co : option Contract) (name : string) (cb : Cb).

(** What one call leaves behind, whatever came before. *)
Lemma useContractEvent_post st co name cb :
  sub_inv cellid next em0 st -> sub_linked st ->
  let st' := useContractEvent co name cb st in
  sub_linked st'
  ∧ deps (sub st') = Some (co, name)
  ∧ savedCallback (sub st') = Some cb.
Proof.
  intros Hinv Hlink st'. subst st'. unfold useContractEvent.
  destruct (decide (deps (sub st) = Some (co, name))) as [Hd|Hd].
  - rewrite destroy_unchanged, create_unchanged by exact Hd.
    split_and!; [exact Hlink | exact Hd | reflexivity].
  - rewrite destroy_changed by exact Hd.
    rewrite create_changed by (by rewrite deps_run_cleanup).
    destruct (sub_inv_cleanup cellid next em0 Hforeign st Hinv) as (_ & Hnone & _).
    unfold subscribe, sub_linked.
    destruct co as [c|]; [destruct (truthy name) eqn:Hn|];
      cbn [sub deps cleanup savedCallback save_callback fmap option_fmap option_map
           target l_source l_channel]; rewrite ?Hn; by split_and!.
Qed.

Lemma renders_post (rs : list (option Contract * string * Cb)) : forall st,
  sub_inv cellid next em0 st -> sub_linked st ->
  sub_inv cellid next em0 (renders rs st) ∧ sub_linked (renders rs st).
Proof.
  induction rs as [|r rs IH]; intros st Hinv Hlink; [by split|].
  unfold renders in *. cbn [foldl]. apply IH.
  - by apply (sub_inv_render cellid next em0 Hforeign).
  - by apply useContractEvent_post.
Qed.

Lemma renders_snoc (rs : list (option Contract * string * Cb)) r st :
  renders (rs ++ [r]) st = useContractEvent r.1.1 r.1.2 r.2 (renders rs st).
Proof. unfold renders. by rewrite foldl_app. Qed.

(** The callbacks an event reaches, read off the state between renders. *)
Lemma deliver_linked st (c : Contract) name :
  sub_inv cellid next em0 st -> sub_linked st ->
  deliver c name st
  = if bool_decide (target (deps (sub st)) = Some (c, name))
    then option_list (savedCallback (sub st))
    else [].
Proof.
  intros (Hc & _ & He & Hl) Hlink. unfold deliver, listeners_on.
  rewrite He, List.filter_app, omap_app.
  rewrite foreign_listeners_silent.
  2:{ apply (Forall_listeners_on _ c name em0). rewrite Hc.
      by apply (foreign_cells cellid next). }
  unfold sub_linked in Hlink. rewrite <- Hlink.
  destruct (cleanup (sub st)) as [l|] eqn:E;
    cbn [option_list option_rect List.filter app fmap option_fmap option_map].
  - destruct (Hl l eq_refl) as [Hcell _]. unfold listens.
    destruct (decide (l_source l = c)) as [Hs|Hs];
      [destruct (decide (l_channel l = name)) as [Hn|Hn]|].
    + rewrite !bool_decide_eq_true_2 by congruence.
      cbn [andb omap list_omap]. unfold listener.
      rewrite (bool_decide_eq_true_2 (l_cell l = cell (sub st))) by congruence.
      by destruct (savedCallback (sub st)).
    + rewrite (bool_decide_eq_false_2 (l_channel l = name)) by exact Hn.
      rewrite andb_false_r. by rewrite bool_decide_eq_false_2 by congruence.
    + rewrite (bool_decide_eq_false_2 (l_source l = c)) by exact Hs.
      cbn [andb]. by rewrite bool_decide_eq_false_2 by congruence.
  - by rewrite bool_decide_eq_false_2 by discriminate.
Qed.
End SubscriberDelivery.

(** After any history of renders, an event reaches this subscriber's
    latest handler, once, exactly when it is on the source and channel of
    the latest render and that channel name is not empty; an event on any
    other source or channel (an earlier source, say) reaches none of its
    handlers. *)
Theorem delivery_follows_latest_render {Cb : Type} (cellid next : nat)
    (em0 : Emitter) (rs : list (option Contract * string * Cb))
    (co : option Contract) (name : string) (h : Cb)
    (c' : Contract) (name' : string) :
  Forall (foreign cellid next) em0 ->
  let st0 : St Cb :=
    {| sub := fresh_sub cellid; emitter := em0; next_fn := next |} in
  deliver c' name' (renders (rs ++ [(co, name, h)]) st0)
  = if bool_decide (co = Some c') && bool_decide (name = name') && truthy name
    then [h] else [].
Proof.
  intros Hem0 st0.
  destruct (renders_post cellid next em0 Hem0 rs st0) as [Hinv Hlink].
  { apply sub_inv_fresh. lia. }
  { reflexivity. }
  rewrite renders_snoc. cbn [fst snd].
  destruct (useContractEvent_post cellid next em0 Hem0 _ co name h Hinv Hlink)
    as (Hlink' & Hdeps & Hsaved).
  rewrite (deliver_linked cellid next em0 Hem0); [|
    by apply (sub_inv_render cellid next em0 Hem0) | exact Hlink'].
  rewrite Hdeps, Hsaved. cbn [option_list option_rect]. unfold target.
  destruct co as [c|]; [|reflexivity].
  destruct (truthy name); [|by rewrite andb_false_r].
  rewrite andb_true_r.
  destruct (decide (c = c')) as [->|Hc];
    [destruct (decide (name = name')) as [->|Hn]|].
  - by rewrite !bool_decide_eq_true_2.
  - rewrite (bool_decide_eq_false_2 (name = name')) by exact Hn.
    rewrite andb_false_r. by rewrite bool_decide_eq_false_2 by congruence.
  - rewrite (bool_decide_eq_false_2 (Some c = Some c')) by congruence.
    by rewrite bool_decide_eq_false_2 by congruence.
Qed.

Lemma delivery_follows_latest_render_witness :
  let c1 := {| c_id := 0; c_address := "0xT1" |} in
  let c2 := {| c_id := 1; c_address := "0xT2" |} in
  let other := {| l_source := c1; l_channel := "Transfer"; l_fn := 0; l_cell := 5 |} in
  let st := renders ([(Some c1, "Transfer", 10); (None, "Transfer", 11)]
                       ++ [(Some c2, "Transfer", 12)])
              {| sub := fresh_sub 0; emitter := [other]; next_fn := 1 |} in
  deliver c2 "Transfer" st = [12] ∧ deliver c1 "Transfer" st = [].
Proof.
  intros c1 c2 other st. split.
  - apply (delivery_follows_latest_render 0 1 [other]
             [(Some c1, "Transfer", 10); (None, "Transfer", 11)]
             (Some c2) "Transfer" 12 c2 "Transfer").
    apply Forall_singleton. split; [discriminate | cbn; lia].
  - reflexivity.
Defined.

(** A render with an absent source or an empty channel name leaves the
    subscriber with no listener: whatever it had registered is removed and
    nothing is registered in its place. *)
Theorem absent_source_unsubscribes {Cb : Type} (cellid next : nat)
    (em0 : Emitter) (rs : list (option Contract * string * Cb))
    (co : option Contract) (name : string) (h : Cb) :
  Forall (foreign cellid next) em0 ->
  co = None ∨ truthy name = false ->
  let st0 : St Cb :=
    {| sub := fresh_sub cellid; emitter := em0; next_fn := next |} in
  emitter (renders (rs ++ [(co, name, h)]) st0) = em0.
Proof.
  intros Hem0 Habs st0.
  destruct (renders_post cellid next em0 Hem0 rs st0) as [Hinv Hlink].
  { apply sub_inv_fresh. lia. }
  { reflexivity. }
  rewrite renders_snoc. cbn [fst snd].
  destruct (useContractEvent_post cellid next em0 Hem0 _ co name h Hinv Hlink)
    as (Hlink' & Hdeps & _).
  destruct (proj2 (sub_inv_render cellid next em0 Hem0 _ co name h Hinv))
    as (_ & _ & He & _).
  rewrite He. unfold sub_linked in Hlink'. rewrite Hdeps in Hlink'.
  assert (target (Some (co, name)) = None) as Ht.
  { destruct Habs as [->| Hn]; [reflexivity|].
    unfold target. rewrite Hn. by destruct co. }
  rewrite Ht in Hlink'.
  destruct (cleanup (sub _)); [discriminate|].
  cbn [option_list option_rect]. apply app_nil_r.
Qed.

Lemma absent_source_unsubscribes_witness :
  let c1 := {| c_id := 0; c_address := "0xT1" |} in
  let other := {| l_source := c1; l_channel := "Transfer"; l_fn := 0; l_cell := 5 |} in
  emitter (renders ([(Some c1, "Transfer", 10)] ++ [(None, "Transfer", 11)])
             {| sub := fresh_sub 0; emitter := [other]; next_fn := 1 |})
  = [other].
Proof.
  intros c1 other.
  apply (absent_source_unsubscribes 0 1 [other] [(Some c1, "Transfer", 10)]
           None "Transfer" 11).
  - apply Forall_singleton. split; [discriminate | cbn; lia].
  - by left.
Defined.

(** Once the owning component is unmounted, no event on any source or
    channel reaches a handler of this subscriber, whatever it was
    subscribed to before. *)
Theorem unmounted_subscriber_silent {Cb : Type} (cellid next : nat)
    (em0 : Emitter) (rs : list (option Contract * string * Cb))
    (c : Contract) (name : string) :
  Forall (foreign cellid next) em0 ->
  let st0 : St Cb :=
    {| sub := fresh_sub cellid; emitter := em0; next_fn := next |} in
  deliver c name (unmount (renders rs st0)) = [].
Proof.
  intros Hem0 st0.
  destruct (sub_inv_instants cellid next em0 Hem0 rs st0) as [_ Hr].
  { apply sub_inv_fresh. lia. }
  destruct (sub_inv_cleanup cellid next em0 Hem0 _ Hr) as ((Hc & _) & _ & Hem).
  unfold unmount, deliver. rewrite Hem.
  apply foreign_listeners_silent, Forall_listeners_on.
  rewrite Hc. by apply (foreign_cells cellid next).
Qed.

Lemma unmounted_subscriber_silent_witness :
  let c1 := {| c_id := 0; c_address := "0xT1" |} in
  let other := {| l_source := c1; l_channel := "Transfer"; l_fn := 0; l_cell := 5 |} in
  let st : St nat :=
    renders [(Some c1, "Transfer", 10)]
      {| sub := fresh_sub 0; emitter := [other]; next_fn := 1 |} in
  deliver c1 "Transfer" st = [10] ∧ deliver c1 "Transfer" (unmount st) = [].
Proof.
  intros c1 other st. split; [reflexivity|].
  apply (unmounted_subscriber_silent 0 1 [other] [(Some c1, "Transfer", 10)]
           c1 "Transfer").
  apply Forall_singleton. split; [discriminate | cbn; lia].
Defined.

(** ** A change of address rebinds the hook *)

Lemma contract_of_spawn (a : Async) (w : World) :
  contract (spawn a w) = contract w.
Proof. by destruct a. Qed.

Lemma next_obj_of_spawn (a : Async) (w : World) :
  next_obj (spawn a w) = next_obj w.
Proof. by destruct a. Qed.

Lemma listeners_of_spawn (a : Async) (w : World) :
  listeners (spawn a w) = listeners w.
Proof. by destruct a. Qed.

Lemma contract_commit (t b : bool) (w : World) :
  contract (commit t b w) = contract w ∧ next_obj (commit t b w) = next_obj w.
Proof.
  rewrite commit_spawns_last. cbv zeta.
  destruct t, b; rewrite ?contract_of_spawn, ?next_obj_of_spawn, commit_sites;
    by split.
Qed.

Lemma contract_fresh_step (w : World) (act : Action) :
  contract_fresh w -> contract_fresh (step w act).
Proof.
  unfold contract_fresh. intros Hw. destruct act as [p|id ans|c ch a b|sp];
    cbn [step].
  - unfold rerender.
    match goal with |- context [commit ?t ?b ?w0] =>
      destruct (contract_commit t b w0) as [-> ->] end.
    cbn [contract next_obj]. destruct (memo_deps_changed (props w) p).
    + unfold attach. destruct (erc20 p); [|discriminate].
      intros c [= <-]. cbn [c_id]. lia.
    + exact Hw.
  - destruct (closure_of_settle id ans w) as (_ & -> & _ & _).
    unfold settle. destruct (find_request id (pending w)); [|exact Hw].
    by destruct ans.
  - unfold emit.
    generalize (omap (callback_of w) (listeners_on c ch (listeners w))).
    intros cbs. revert w Hw. induction cbs as [|cb cbs IH]; intros w Hw;
      [exact Hw|].
    cbn [foldl]. apply IH.
    by rewrite contract_of_spawn, next_obj_of_spawn.
  - by rewrite contract_of_spawn, next_obj_of_spawn.
Qed.

Lemma reachable_contract_fresh (w : World) : reachable w -> contract_fresh w.
Proof.
  induction 1 as [p|w act _ IH]; [|by apply contract_fresh_step].
  unfold contract_fresh, mount.
  match goal with |- context [commit ?t ?b ?w0] =>
    destruct (contract_commit t b w0) as [-> ->] end.
  cbn [contract next_obj]. unfold attach. destruct (erc20 p); [|discriminate].
  intros c [= <-]. cbn [c_id]. lia.
Qed.

(** When the erc20 factory or the address changes and a factory is there,
    the hook attaches a new contract object, removes both listeners from
    the old one and registers two new ones on the new one, and polls
    totalSupply and balance again for the new address. *)
Theorem rerender_rebinds (w : World) (p : Props) (e : Erc20) :
  reachable w ->
  erc20 p = Some e ->
  erc20 p ≠ erc20 (props w) ∨ address p ≠ address (props w) ->
  let c' := {| c_id := next_obj w; c_address := address p |} in
  contract (rerender p w) = Some c'
  ∧ listeners (rerender p w)
    = [ {| l_source := c'; l_channel := "Transfer";
           l_fn := next_listener w; l_cell := 0 |};
        {| l_source := c'; l_channel := "Approval";
           l_fn := S (next_listener w); l_cell := 1 |} ]
  ∧ pending (rerender p w)
    = pending w
      ++ request_of (next_req w) (fetchToken p)
      ++ request_of (next_req w + length (request_of (next_req w) (fetchToken p)))
           (fetchBalance p).
Proof.
  intros Hr He Hch c'.
  pose proof (reachable_contract_fresh w Hr) as Hfresh.
  apply reachable_wf in Hr as [Ht Ha Hl _].
  assert (memo_deps_changed (props w) p = true) as Hmemo.
  { unfold memo_deps_changed. rewrite bool_decide_eq_false_2; [done|].
    intros [? ?]. by destruct Hch. }
  assert (token_deps_changed (props w) p = true) as Htok.
  { unfold token_deps_changed. rewrite bool_decide_eq_false_2; [done|].
    intros (? & _ & ? & _). by destruct Hch. }
  assert (balance_deps_changed (props w) p = true) as Hbal.
  { unfold balance_deps_changed. rewrite bool_decide_eq_false_2; [done|].
    intros (? & _ & ? & _). by destruct Hch. }
  assert (contract w ≠ Some c') as Hne.
  { intros Hc. specialize (Hfresh c' Hc). unfold c' in Hfresh.
    cbn [c_id] in Hfresh. lia. }
  split_and!.
  - unfold rerender.
    match goal with |- context [commit ?t ?b ?w0] =>
      destruct (contract_commit t b w0) as [-> _] end.
    cbn [contract]. rewrite Hmemo. unfold attach. by rewrite He.
  - unfold rerender. rewrite Hmemo, Htok, Hbal, commit_spawns_last. cbv zeta.
    rewrite !listeners_of_spawn.
    rewrite commit_sites. unfold attach. rewrite He. fold c'.
    unfold site_ok in Ht, Ha.
    destruct w as [v p0 c sT sA ls pd nr nl no].
    cbn [contract subTransfer subApproval listeners closure_of props next_obj
         next_listener] in *.
    destruct sT as [cT svT dT clT], sA as [cA svA dA clA].
    cbn [cell savedCallback deps cleanup] in Ht, Ha, Hl.
    destruct Ht as (-> & -> & -> & Ht). destruct Ha as (-> & -> & -> & Ha).
    subst ls. world_fields.
    destruct c as [c|], clT as [lT|], clA as [lA|]; try done;
      site_step (on_site_eq TransferSite (destroy_phase _ _)) by destroy_changed;
      site_step (on_site_eq ApprovalSite (destroy_phase _ _)) by destroy_changed;
      rewrite ?off_head;
      site_step (on_site_eq TransferSite (create_phase _ _ _)) by create_changed;
      site_step (on_site_eq ApprovalSite (create_phase _ _ _)) by create_changed;
      reflexivity.
  - unfold rerender. rewrite pending_commit, Htok, Hbal. reflexivity.
Qed.

Lemma rerender_rebinds_witness :
  contract overlapping = Some {| c_id := 1; c_address := "0xT2" |}
  ∧ listeners overlapping
    = [ {| l_source := {| c_id := 1; c_address := "0xT2" |};
           l_channel := "Transfer"; l_fn := 2; l_cell := 0 |};
        {| l_source := {| c_id := 1; c_address := "0xT2" |};
           l_channel := "Approval"; l_fn := 3; l_cell := 1 |} ].
Proof.
  destruct (rerender_rebinds (mount propsA) propsB 7) as (Hc & Hl & _).
  - apply reach_mount.
  - reflexivity.
  - right. discriminate.
  - exact (conj Hc Hl).
Defined.

(** ** The dispatcher after a render *)

Lemma props_of_spawn (a : Async) (w : World) : props (spawn a w) = props w.
Proof. by destruct a. Qed.

Lemma props_rerender (p : Props) (w : World) : props (rerender p w) = p.
Proof.
  unfold rerender. rewrite commit_spawns_last. cbv zeta.
  destruct (token_deps_changed _ _), (balance_deps_changed _ _);
    rewrite ?props_of_spawn, commit_sites; reflexivity.
Qed.

(** approve and approveInfinity act on what the latest render read: after a
    render with a new signer, both submit through the bound contract
    connected to that signer, approve with the raw integer of the amount
    it was given and approveInfinity with 2^256 - 1; the two calls differ
    in the amount only. *)
Theorem approve_after_render (big2BigNum : Big -> Z) (w : World) (p : Props)
    (c : Contract) (spender : string) (amount : Big) :
  contract (rerender p w) = Some c ->
  approve big2BigNum (closure_of (rerender p w)) (spender, amount)
  = Executing (ExecuteWithGasLimit c (signer p) "approve"
                 [ArgAddress spender; ArgUint (big2BigNum amount)] APPROVE)
  ∧ approveInfinity (closure_of (rerender p w)) spender
    = Executing (ExecuteWithGasLimit c (signer p) "approve"
                   [ArgAddress spender; ArgUint MaxUint256] APPROVE).
Proof.
  intros Hc.
  unfold approve, approveInfinity, useContractCall, approve_callback,
    approveInfinity_callback, closure_of.
  cbn [cl_contract cl_signer]. by rewrite Hc, props_rerender.
Qed.

Lemma approve_after_render_witness :
  network_call
    (approve QArith_base.Qnum (closure_of (rerender propsOther (mount propsA)))
       ("0xAAA", bigNum2Big 5 0))
  = Some (ExecuteWithGasLimit {| c_id := 0; c_address := "0xT1" |} (Some 6)
            "approve" [ArgAddress "0xAAA"; ArgUint 5] APPROVE).
Proof.
  rewrite (proj1 (approve_after_render QArith_base.Qnum (mount propsA) propsOther
                    {| c_id := 0; c_address := "0xT1" |} "0xAAA"
                    (bigNum2Big 5 0) eq_refl)).
  reflexivity.
Defined.

Lemma hook_listeners_per_pair_witness :
  length (listeners_on {| c_id := 1; c_address := "0xT2" |} "Transfer"
            (listeners overlapping)) ≤ 1
  ∧ listeners_on {| c_id := 0; c_address := "0xT1" |} "Transfer"
      (listeners overlapping) = [].
Proof.
  split.
  - apply (hook_listeners_per_pair overlapping).
    apply (reach_step (mount propsA) (Render propsB)), reach_mount.
  - apply (hook_listeners_per_pair overlapping).
    + apply (reach_step (mount propsA) (Render propsB)), reach_mount.
    + discriminate.
Defined.
